(** * Advanced task manager: the reducer, the derived view, the analytics
      and the local-storage bridge of [advanced-task-manager.tsx]

    The development embeds the TypeScript component shallowly:
    - [Task.t], [TaskTag.t], [TasksState.t] and [TaskAction] follow the type
      declarations at the top of the source file;
    - [tasksReducer] is the [switch] of the source, case by case;
    - [filteredAndSortedTasks] is the [useMemo] pipeline, stage by stage;
    - [handleDragEnd] is the drag-and-drop boundary;
    - [load_effect] / [save_effect] are the two [useEffect] bodies.

    Conventions of the embedding.
    - A JavaScript [number] that the component uses as a count, a priority or
      a position is an integer ([Z]).
    - A [Date] is its time value: an integral number of milliseconds, or the
      NaN time value of an "Invalid Date".
    - Strings are sequences of 8-bit code units (Latin-1 text). *)

From Stdlib Require Import ZArith List String Ascii Bool Lia.
From Stdlib Require Import Permutation Sorted QArith DecimalString DecimalZ.
Import ListNotations.

Set Warnings "-register-all".


Local Open Scope string_scope.
Local Open Scope Z_scope.

(* ===================================================================== *)
(** ** Platform values                                                     *)
(* ===================================================================== *)

(** The time value of a JavaScript [Date] object. [InvalidDate] is the
    object whose time value is NaN (for instance [new Date("garbage")]). *)
Inductive Date : Type :=
| ValidDate (t : Z)
| InvalidDate.

(** [d.getTime()]: [None] stands for NaN. *)
Definition getTime (d : Date) : option Z :=
  match d with
  | ValidDate t => Some t
  | InvalidDate => None
  end.

(** The largest time value: 100 000 000 days on either side of the epoch. *)
Definition max_time : Z := 8640000000000000.

(** A date that denotes an instant: its time value is a number within the
    range of time values. *)
Definition is_valid_date (d : Date) : Prop :=
  match d with
  | ValidDate t => Z.abs t <= max_time
  | InvalidDate => False
  end.

(** [TimeClip]: a time value outside the range is NaN. *)
Definition TimeClip (n : Z) : Date :=
  if (Z.abs n <=? max_time) then ValidDate n else InvalidDate.

(** JavaScript values as the persistence code sees them: what [JSON.parse]
    returns ([VNull], [VBool], [VNum], [VStr], [VArr], [VObj]), extended with
    [undefined] and with [Date] objects. An object is the list of its own
    properties in insertion order. *)
Inductive jsval : Type :=
| VUndefined
| VNull
| VBool (b : bool)
| VNum (n : Z)
| VStr (s : string)
| VDate (d : Date)
| VArr (items : list jsval)
| VObj (props : list (string * jsval)).

(** Exceptions, and computations that return normally or throw. *)
Inductive js_error : Type := SyntaxError | TypeError.

Inductive completion (A : Type) : Type :=
| Normal (a : A)
| Throw (e : js_error).
Arguments Normal {A} a.
Arguments Throw {A} e.

Definition bind {A B : Type} (c : completion A) (k : A -> completion B)
  : completion B :=
  match c with
  | Normal a => k a
  | Throw e => Throw e
  end.

Notation "x <- c ;; k" := (bind c (fun x => k))
  (at level 61, c at next level, right associativity).

(** The functions of the JavaScript runtime that the component calls and
    whose result depends on the engine, its locale tables or its date
    parser. They are parameters of the whole development. *)
Class JsRuntime : Type := {
  (** [a.localeCompare(b)]: negative, zero or positive. *)
  localeCompare : string -> string -> Z;
  (** [new Date(t).toISOString()] for a valid time value [t]. *)
  toISOString : Z -> string;
  (** [new Date(s)] for a string [s]. *)
  Date_parse : string -> Date;
  (** [new Date(o)] for an array or a plain object [o]: the engine converts
      [o] to a primitive, which throws when [o] carries a [toString] and a
      [valueOf] that are not callable, and parses the outcome. *)
  Date_of_object : jsval -> completion Date
}.

(* ===================================================================== *)
(** ** Entity model                                                        *)
(* ===================================================================== *)

Module TaskTag.
Record t : Type := mk {
  id : string;
  name : string;
  color : string
}.
End TaskTag.

Module Task.
Record t : Type := mk {
  id : string;
  name : string;
  description : string;
  dueDate : Date;
  completed : bool;
  priority : Z;
  tags : list string;        (* tag ids *)
  createdAt : Date;
  completedAt : option Date; (* [None] is [null] *)
  position : Z               (* for drag and drop ordering *)
}.

(** [{ ...task, completed: c, completedAt: d }] *)
Definition with_completion (task : t) (c : bool) (d : option Date) : t :=
  mk (id task) (name task) (description task) (dueDate task) c
     (priority task) (tags task) (createdAt task) d (position task).

(** [{ ...task, tags: l }] *)
Definition with_tags (task : t) (l : list string) : t :=
  mk (id task) (name task) (description task) (dueDate task)
     (completed task) (priority task) l (createdAt task)
     (completedAt task) (position task).

(** [{ ...task, position: p }] *)
Definition with_position (task : t) (p : Z) : t :=
  mk (id task) (name task) (description task) (dueDate task)
     (completed task) (priority task) (tags task) (createdAt task)
     (completedAt task) p.
End Task.

Module TasksState.
Record t : Type := mk {
  tasks : list Task.t;
  tags : list TaskTag.t
}.
End TasksState.

(** Action types for the reducer. *)
Inductive TaskAction : Type :=
| ADD_TASK (payload : Task.t)
| TOGGLE_TASK (id : string) (date : Date)
| DELETE_TASK (payload : string)
| EDIT_TASK (payload : Task.t)
| REPLACE_ALL (payload : TasksState.t)
| REORDER_TASKS (payload : list Task.t)
| ADD_TAG (payload : TaskTag.t)
| EDIT_TAG (payload : TaskTag.t)
| DELETE_TAG (payload : string).

(* ===================================================================== *)
(** ** Mutation engine: [tasksReducer]                                     *)
(* ===================================================================== *)

(** [a === b] and [a !== b] on strings. *)
Definition str_eq (a b : string) : bool := String.eqb a b.
Definition str_neq (a b : string) : bool := negb (String.eqb a b).

Definition tasksReducer (state : TasksState.t) (action : TaskAction)
  : TasksState.t :=
  match action with
  | ADD_TASK payload =>
      TasksState.mk (TasksState.tasks state ++ [payload])
                    (TasksState.tags state)
  | TOGGLE_TASK id date =>
      TasksState.mk
        (map (fun task =>
                if str_eq (Task.id task) id
                then Task.with_completion task
                       (negb (Task.completed task))
                       (if negb (Task.completed task) then Some date else None)
                else task)
             (TasksState.tasks state))
        (TasksState.tags state)
  | DELETE_TASK payload =>
      TasksState.mk
        (filter (fun task => str_neq (Task.id task) payload)
                (TasksState.tasks state))
        (TasksState.tags state)
  | EDIT_TASK payload =>
      TasksState.mk
        (map (fun task =>
                if str_eq (Task.id task) (Task.id payload) then payload else task)
             (TasksState.tasks state))
        (TasksState.tags state)
  | REPLACE_ALL payload => payload
  | REORDER_TASKS payload =>
      TasksState.mk payload (TasksState.tags state)
  | ADD_TAG payload =>
      TasksState.mk (TasksState.tasks state)
                    (TasksState.tags state ++ [payload])
  | EDIT_TAG payload =>
      TasksState.mk
        (TasksState.tasks state)
        (map (fun tag =>
                if str_eq (TaskTag.id tag) (TaskTag.id payload) then payload else tag)
             (TasksState.tags state))
  | DELETE_TAG payload =>
      TasksState.mk
        (map (fun task =>
                Task.with_tags task
                  (filter (fun tagId => str_neq tagId payload) (Task.tags task)))
             (TasksState.tasks state))
        (filter (fun tag => str_neq (TaskTag.id tag) payload)
                (TasksState.tags state))
  end.

(* ===================================================================== *)
(** ** String primitives used by the view                                  *)
(* ===================================================================== *)

Module JsString.

(** White space and line terminators of ECMAScript in the Latin-1 range:
    TAB, LF, VT, FF, CR, SP and NBSP. *)
Definition is_white_space (c : ascii) : bool :=
  let n := nat_of_ascii c in
  ((9 <=? n) && (n <=? 13) || (n =? 32) || (n =? 160))%nat.

Fixpoint trimStart (s : string) : string :=
  match s with
  | EmptyString => EmptyString
  | String c r => if is_white_space c then trimStart r else s
  end.

Definition reverse (s : string) : string :=
  string_of_list_ascii (rev (list_ascii_of_string s)).

(** [s.trim()] *)
Definition trim (s : string) : string :=
  reverse (trimStart (reverse (trimStart s))).

(** Lower-case mapping of one Latin-1 code unit: A-Z, and the accented
    capitals U+00C0..U+00DE except the multiplication sign U+00D7. *)
Definition lower_char (c : ascii) : ascii :=
  let n := nat_of_ascii c in
  if ((65 <=? n) && (n <=? 90))%nat then ascii_of_nat (n + 32)
  else if ((192 <=? n) && (n <=? 222) && negb (n =? 215))%nat
       then ascii_of_nat (n + 32)
       else c.

(** [s.toLowerCase()] *)
Fixpoint toLowerCase (s : string) : string :=
  match s with
  | EmptyString => EmptyString
  | String c r => String (lower_char c) (toLowerCase r)
  end.

(** [s.includes(q)]: [q] occurs in [s] as a contiguous substring. *)
Fixpoint includes (s q : string) : bool :=
  String.prefix q s ||
  match s with
  | EmptyString => false
  | String _ r => includes r q
  end.

(** Truthiness of a string: every string but the empty one. *)
Definition truthy (s : string) : bool := negb (String.eqb s "").

End JsString.

(* ===================================================================== *)
(** ** Numbers that may be NaN                                             *)
(* ===================================================================== *)

(** An integral JavaScript number, or NaN. *)
Inductive number : Type :=
| Int (z : Z)
| NaN.

(** [p === n] for an integer [p]: NaN is equal to nothing. *)
Definition num_strict_eq (p : Z) (n : number) : bool :=
  match n with
  | Int z => p =? z
  | NaN => false
  end.

(** [a - b] on time values, NaN as soon as one side is NaN. *)
Definition num_sub (a b : option Z) : number :=
  match a, b with
  | Some x, Some y => Int (x - y)
  | _, _ => NaN
  end.

Module ParseInt.

Definition digit_value (radix : Z) (c : ascii) : option Z :=
  let n := Z.of_nat (nat_of_ascii c) in
  let v :=
    if (48 <=? n) && (n <=? 57) then Some (n - 48)
    else if (97 <=? n) && (n <=? 122) then Some (n - 87)
    else if (65 <=? n) && (n <=? 90) then Some (n - 55)
    else None in
  match v with
  | Some d => if d <? radix then Some d else None
  | None => None
  end.

(** The longest prefix of radix-[radix] digits, accumulated left to right;
    [None] when the prefix is empty. *)
Fixpoint digits (radix : Z) (acc : option Z) (s : string) : option Z :=
  match s with
  | EmptyString => acc
  | String c r =>
      match digit_value radix c with
      | Some d =>
          digits radix
            (Some (match acc with Some a => a * radix + d | None => d end)) r
      | None => acc
      end
  end.

Definition strip_hex_prefix (s : string) : option string :=
  match s with
  | String "0" (String "x" r) => Some r
  | String "0" (String "X" r) => Some r
  | _ => None
  end.

(** [Number.parseInt(s)] with no radix argument: leading white space, an
    optional sign, an optional [0x] prefix, then the longest digit prefix;
    NaN when there is no digit. *)
Definition parseInt (s : string) : number :=
  let s := JsString.trimStart s in
  let '(sign, s) :=
    match s with
    | String "-" r => (-1, r)
    | String "+" r => (1, r)
    | _ => (1, s)
    end in
  let magnitude :=
    match strip_hex_prefix s with
    | Some r => digits 16 None r
    | None => digits 10 None s
    end in
  match magnitude with
  | Some m => Int (sign * m)
  | None => NaN
  end.

End ParseInt.

(* ===================================================================== *)
(** ** [Array.prototype.sort] with a comparator                            *)
(* ===================================================================== *)

Section ArraySort.
Context {A : Type}.
Variable cmp : A -> A -> number.

(** The comparator's verdict as the sort reads it: NaN counts as [+0]. *)
Definition verdict (a b : A) : Z :=
  match cmp a b with
  | Int z => z
  | NaN => 0
  end.

(** [x] is placed in front of the first element it does not have to come
    after, hence in front of the elements it ties with. *)
Fixpoint sort_insert (x : A) (sorted : list A) : list A :=
  match sorted with
  | [] => [x]
  | y :: rest =>
      if verdict x y <=? 0 then x :: y :: rest
      else y :: sort_insert x rest
  end.

(** The sort is stable (ECMAScript 2019): for a consistent comparator its
    result is the one of this stable insertion sort. *)
Definition Array_sort (l : list A) : list A :=
  fold_right sort_insert [] l.
End ArraySort.

(* ===================================================================== *)
(** ** Derived view pipeline: [filteredAndSortedTasks]                     *)
(* ===================================================================== *)

Inductive StatusFilter : Type := StatusAll | StatusCompleted | StatusActive.

Inductive SortKey : Type := SortDueDate | SortPriority | SortName | SortCreatedAt.

(** The view-local state of [AdvancedTaskManager]. *)
Record ViewParams : Type := mkView {
  statusFilter : StatusFilter;
  priorityFilter : option number;   (* [number | null] *)
  tagFilter : option string;        (* [string | null] *)
  sortBy : SortKey;
  searchQuery : string
}.

(** [l.includes(x)] on an array of strings. *)
Definition array_includes (l : list string) (x : string) : bool :=
  existsb (fun y => str_eq y x) l.

Section View.
Context {rt : JsRuntime}.

Definition byDueDate (a b : Task.t) : number :=
  num_sub (getTime (Task.dueDate a)) (getTime (Task.dueDate b)).

Definition byPriority (a b : Task.t) : number :=
  Int (Task.priority b - Task.priority a).

Definition byName (a b : Task.t) : number :=
  Int (localeCompare (Task.name a) (Task.name b)).

Definition byCreatedAt (a b : Task.t) : number :=
  num_sub (getTime (Task.createdAt b)) (getTime (Task.createdAt a)).

Definition filteredAndSortedTasks (tasks : list Task.t) (v : ViewParams)
  : list Task.t :=
  let filtered := tasks in
  (* Apply search filter *)
  let filtered :=
    if str_neq (JsString.trim (searchQuery v)) "" then
      let query := JsString.toLowerCase (searchQuery v) in
      filter (fun task =>
                JsString.includes (JsString.toLowerCase (Task.name task)) query
                || JsString.includes
                     (JsString.toLowerCase (Task.description task)) query)
             filtered
    else filtered in
  (* Apply status filter *)
  let filtered :=
    match statusFilter v with
    | StatusCompleted => filter (fun task => Task.completed task) filtered
    | StatusActive => filter (fun task => negb (Task.completed task)) filtered
    | StatusAll => filtered
    end in
  (* Apply priority filter *)
  let filtered :=
    match priorityFilter v with
    | Some p => filter (fun task => num_strict_eq (Task.priority task) p) filtered
    | None => filtered
    end in
  (* Apply tag filter *)
  let filtered :=
    match tagFilter v with
    | Some tg => filter (fun task => array_includes (Task.tags task) tg) filtered
    | None => filtered
    end in
  (* Apply sorting *)
  match sortBy v with
  | SortDueDate => Array_sort byDueDate filtered
  | SortPriority => Array_sort byPriority filtered
  | SortName => Array_sort byName filtered
  | SortCreatedAt => Array_sort byCreatedAt filtered
  end.
End View.

(** The [onValueChange] handler of the priority [Select]:
    [setPriorityFilter(value ? Number.parseInt(value) : null)]. *)
Definition onPriorityChange (value : string) : option number :=
  if JsString.truthy value then Some (ParseInt.parseInt value) else None.

(** The [onValueChange] handler of the tag [Select]. *)
Definition onTagChange (value : string) : option string :=
  if str_eq value "0" then None else Some value.

(* ===================================================================== *)
(** ** Reorder intent construction: [handleDragEnd]                        *)
(* ===================================================================== *)

(** The [result] object of the drag-and-drop library: the index the item
    was taken from, and the index it was dropped at ([None] when it was
    dropped outside the list). *)
Record DropResult : Type := mkDrop {
  source_index : nat;
  destination : option nat
}.

(** What the handler does with the store. *)
Inductive DragOutcome : Type :=
| NoDispatch                       (* [if (!result.destination) return] *)
| Dispatch (action : TaskAction)
| DispatchMalformed.               (* the spliced-out item was [undefined] *)

(** [items.splice(i, 1)]: the array without its [i]-th element. *)
Definition splice_out {A : Type} (i : nat) (items : list A) : list A :=
  firstn i items ++ skipn (S i) items.

(** [items.splice(i, 0, x)]: [x] inserted in front of index [i], at the end
    when [i] is past the end. *)
Definition splice_in {A : Type} (i : nat) (x : A) (items : list A) : list A :=
  firstn i items ++ x :: skipn i items.

(** [items.map((item, index) => f(item, index))], counting from [start]. *)
Fixpoint map_index {A B : Type} (f : A -> nat -> B) (start : nat) (items : list A)
  : list B :=
  match items with
  | [] => []
  | x :: rest => f x start :: map_index f (S start) rest
  end.

Definition handleDragEnd (displayed : list Task.t) (result : DropResult)
  : DragOutcome :=
  match destination result with
  | None => NoDispatch
  | Some dest =>
      let items := displayed in
      match nth_error items (source_index result) with
      | None => DispatchMalformed
      | Some reorderedItem =>
          let items := splice_out (source_index result) items in
          let items := splice_in dest reorderedItem items in
          (* Update positions *)
          let updatedItems :=
            map_index (fun item index => Task.with_position item (Z.of_nat index))
                      0%nat items in
          Dispatch (REORDER_TASKS updatedItems)
      end
  end.

(** The store after a drag that ended on [result] while [displayed] was on
    screen. *)
Definition after_drag (state : TasksState.t) (displayed : list Task.t)
           (result : DropResult) : option TasksState.t :=
  match handleDragEnd displayed result with
  | NoDispatch => Some state
  | Dispatch action => Some (tasksReducer state action)
  | DispatchMalformed => None
  end.

(* ===================================================================== *)
(** ** Analytics: [TaskAnalytics]                                          *)
(* ===================================================================== *)




Definition totalTasks (tasks : list Task.t) : Z :=
  Z.of_nat (List.length tasks).

Definition completedTasks (tasks : list Task.t) : Z :=
  Z.of_nat (List.length (filter (fun task => Task.completed task) tasks)).


(* ===================================================================== *)
(** ** The initial state of [useReducer]                                   *)
(* ===================================================================== *)

Definition day_ms : Z := 24 * 60 * 60 * 1000.

(** [new Date(n)] for a number [n]. *)
Definition Date_of_number (n : Z) : Date := TimeClip n.

(** The seed data. [Date_now k] is the value of the [k]-th call of
    [Date.now()] made while the object literal is evaluated. *)
Definition initialState (Date_now : nat -> Z) : TasksState.t :=
  TasksState.mk
    [ Task.mk "1" "Complete React Project"
        "Finish developing the advanced task manager component"
        (Date_of_number (Date_now 0%nat + 3 * day_ms)) false 4 ["1"]
        (Date_of_number (Date_now 1%nat - 2 * day_ms)) None 0;
      Task.mk "2" "Read React Hooks Book"
        "Read chapters 3-5 of the book"
        (Date_of_number (Date_now 2%nat + 7 * day_ms)) false 2 ["2"]
        (Date_of_number (Date_now 3%nat - 5 * day_ms)) None 1;
      Task.mk "3" "Update Resume"
        "Add new skills and projects"
        (Date_of_number (Date_now 4%nat - 2 * day_ms)) true 3 ["3"]
        (Date_of_number (Date_now 5%nat - 10 * day_ms))
        (Some (Date_of_number (Date_now 6%nat - 1 * day_ms))) 2;
      Task.mk "4" "Prepare for Interview"
        "Research company and practice common questions"
        (Date_of_number (Date_now 7%nat + 1 * day_ms)) false 5 ["1"; "3"]
        (Date_of_number (Date_now 8%nat - 3 * day_ms)) None 3 ]
    [ TaskTag.mk "1" "Work" "#3b82f6";
      TaskTag.mk "2" "Learning" "#10b981";
      TaskTag.mk "3" "Personal" "#8b5cf6" ].

(** The view-local state right after mounting. *)
Definition initialView : ViewParams :=
  mkView StatusAll None None SortDueDate "".

(* ===================================================================== *)
(** ** Persistence bridge                                                  *)
(* ===================================================================== *)

(** [items.map(f)] for a callback that may throw: the first exception
    aborts the traversal. *)
Fixpoint Array_map {A B : Type} (f : A -> completion B) (items : list A)
  : completion (list B) :=
  match items with
  | [] => Normal []
  | x :: rest =>
      y <- f x ;;
      ys <- Array_map f rest ;;
      Normal (y :: ys)
  end.

(** *** Property access on values *)

Fixpoint own_property (k : string) (props : list (string * jsval))
  : option jsval :=
  match props with
  | [] => None
  | (k', v) :: rest => if str_eq k' k then Some v else own_property k rest
  end.

(** [v.k] for one of the keys the loader reads ([tasks], [tags], [dueDate],
    [createdAt], [completedAt]; none of them is a property of a prototype):
    a [TypeError] on [null] and [undefined], the own property of an object,
    [undefined] otherwise. *)
Definition get (v : jsval) (k : string) : completion jsval :=
  match v with
  | VUndefined | VNull => Throw TypeError
  | VObj props =>
      Normal (match own_property k props with Some x => x | None => VUndefined end)
  | _ => Normal VUndefined
  end.

(** [obj[k] = v] inside an object literal: an existing key keeps its place,
    a new key goes last. *)
Fixpoint set_property (k : string) (v : jsval) (props : list (string * jsval))
  : list (string * jsval) :=
  match props with
  | [] => [(k, v)]
  | (k', v') :: rest =>
      if str_eq k' k then (k, v) :: rest else (k', v') :: set_property k v rest
  end.

Definition index_key (i : nat) : string :=
  NilEmpty.string_of_uint (Nat.to_uint i).

Fixpoint chars (s : string) : list jsval :=
  match s with
  | EmptyString => []
  | String c r => VStr (String c EmptyString) :: chars r
  end.

(** The own enumerable properties that [{ ...v }] copies. *)
Definition spread (v : jsval) : list (string * jsval) :=
  match v with
  | VObj props => props
  | VArr items => map_index (fun x i => (index_key i, x)) 0%nat items
  | VStr s => map_index (fun x i => (index_key i, x)) 0%nat (chars s)
  | _ => []
  end.

(** Truthiness, as the conditional operator reads it. *)
Definition truthy (v : jsval) : bool :=
  match v with
  | VUndefined | VNull => false
  | VBool b => b
  | VNum n => negb (n =? 0)
  | VStr s => JsString.truthy s
  | VDate _ | VArr _ | VObj _ => true
  end.

Section Persistence.
Context {rt : JsRuntime}.

(** [new Date(v)] *)
Definition new_Date (v : jsval) : completion Date :=
  match v with
  | VUndefined => Normal InvalidDate
  | VNull => Normal (Date_of_number 0)
  | VBool b => Normal (Date_of_number (if b then 1 else 0))
  | VNum n => Normal (Date_of_number n)
  | VStr s => Normal (Date_parse s)
  | VDate d => Normal d
  | VArr _ | VObj _ => Date_of_object v
  end.

(** *** JSON *)

(** [Date.prototype.toJSON]: the ISO string, or [null] for a date whose
    time value is not finite. *)
Definition Date_toJSON (d : Date) : jsval :=
  match d with
  | ValidDate t => VStr (toISOString t)
  | InvalidDate => VNull
  end.

(** The value that [JSON.parse(JSON.stringify(v))] yields: dates become
    what [toJSON] returns, an [undefined] array element becomes [null], a
    property whose value is [undefined] is left out. *)
Fixpoint json_image (v : jsval) : jsval :=
  match v with
  | VDate d => Date_toJSON d
  | VArr items =>
      VArr (map (fun x => match x with
                          | VUndefined => VNull
                          | _ => json_image x
                          end) items)
  | VObj props =>
      VObj ((fix image_props (ps : list (string * jsval)) :=
               match ps with
               | [] => []
               | (k, x) :: rest =>
                   match x with
                   | VUndefined => image_props rest
                   | _ => (k, json_image x) :: image_props rest
                   end
               end) props)
  | _ => v
  end.

(** A string held by the local-storage slot, described by what
    [JSON.parse] makes of it: the JSON text of a value, or a string that
    the parser rejects ([empty] tells whether it is the empty string). *)
Inductive stored_string : Type :=
| JSONText (doc : jsval)
| NotJSON (empty : bool).

Definition JSON_parse (s : stored_string) : completion jsval :=
  match s with
  | JSONText doc => Normal doc
  | NotJSON _ => Throw SyntaxError
  end.

Definition JSON_stringify (v : jsval) : stored_string :=
  JSONText (json_image v).

(** [localStorage.getItem("advancedTasks")]: [None] is [null]. *)
Definition Storage : Type := option stored_string.

Definition saved_is_truthy (saved : Storage) : bool :=
  match saved with
  | None => false
  | Some (JSONText _) => true
  | Some (NotJSON empty) => negb empty
  end.

(** *** The typed state as a JavaScript value *)

Definition value_of_completedAt (d : option Date) : jsval :=
  match d with
  | Some d => VDate d
  | None => VNull
  end.

Definition value_of_Task (task : Task.t) : jsval :=
  VObj [ ("id", VStr (Task.id task));
         ("name", VStr (Task.name task));
         ("description", VStr (Task.description task));
         ("dueDate", VDate (Task.dueDate task));
         ("completed", VBool (Task.completed task));
         ("priority", VNum (Task.priority task));
         ("tags", VArr (map VStr (Task.tags task)));
         ("createdAt", VDate (Task.createdAt task));
         ("completedAt", value_of_completedAt (Task.completedAt task));
         ("position", VNum (Task.position task)) ].

Definition value_of_TaskTag (tag : TaskTag.t) : jsval :=
  VObj [ ("id", VStr (TaskTag.id tag));
         ("name", VStr (TaskTag.name tag));
         ("color", VStr (TaskTag.color tag)) ].

Definition value_of_TasksState (state : TasksState.t) : jsval :=
  VObj [ ("tasks", VArr (map value_of_Task (TasksState.tasks state)));
         ("tags", VArr (map value_of_TaskTag (TasksState.tags state))) ].
End Persistence.

(** *** Reading a value back as typed state *)

Module Typed.

Definition and_then {A B : Type} (o : option A) (k : A -> option B)
  : option B :=
  match o with
  | Some a => k a
  | None => None
  end.

Fixpoint all {A B : Type} (f : A -> option B) (l : list A) : option (list B) :=
  match l with
  | [] => Some []
  | x :: rest =>
      and_then (f x) (fun y =>
      and_then (all f rest) (fun ys => Some (y :: ys)))
  end.

Definition string_of (v : jsval) : option string :=
  match v with VStr s => Some s | _ => None end.

Definition number_of (v : jsval) : option Z :=
  match v with VNum n => Some n | _ => None end.

Definition boolean_of (v : jsval) : option bool :=
  match v with VBool b => Some b | _ => None end.

Definition Date_of (v : jsval) : option Date :=
  match v with VDate d => Some d | _ => None end.

Definition Date_or_null_of (v : jsval) : option (option Date) :=
  match v with
  | VDate d => Some (Some d)
  | VNull => Some None
  | _ => None
  end.

Definition strings_of (v : jsval) : option (list string) :=
  match v with VArr items => all string_of items | _ => None end.

Definition field {A : Type} (props : list (string * jsval)) (k : string)
           (read : jsval -> option A) : option A :=
  and_then (own_property k props) read.

(** A value has type [Task] when each declared field is present with the
    declared type; a date field holds a [Date] object, not a string. *)
Definition Task_of (v : jsval) : option Task.t :=
  match v with
  | VObj props =>
      and_then (field props "id" string_of) (fun id =>
      and_then (field props "name" string_of) (fun name =>
      and_then (field props "description" string_of) (fun description =>
      and_then (field props "dueDate" Date_of) (fun dueDate =>
      and_then (field props "completed" boolean_of) (fun completed =>
      and_then (field props "priority" number_of) (fun priority =>
      and_then (field props "tags" strings_of) (fun tags =>
      and_then (field props "createdAt" Date_of) (fun createdAt =>
      and_then (field props "completedAt" Date_or_null_of) (fun completedAt =>
      and_then (field props "position" number_of) (fun position =>
      Some (Task.mk id name description dueDate completed priority tags
                    createdAt completedAt position)))))))))))
  | _ => None
  end.

Definition TaskTag_of (v : jsval) : option TaskTag.t :=
  match v with
  | VObj props =>
      and_then (field props "id" string_of) (fun id =>
      and_then (field props "name" string_of) (fun name =>
      and_then (field props "color" string_of) (fun color =>
      Some (TaskTag.mk id name color))))
  | _ => None
  end.

Definition list_of {A : Type} (read : jsval -> option A) (v : jsval)
  : option (list A) :=
  match v with VArr items => all read items | _ => None end.

Definition TasksState_of (v : jsval) : option TasksState.t :=
  match v with
  | VObj props =>
      and_then (field props "tasks" (list_of Task_of)) (fun tasks =>
      and_then (field props "tags" (list_of TaskTag_of)) (fun tags =>
      Some (TasksState.mk tasks tags)))
  | _ => None
  end.

End Typed.

(** *** The two effects of [AdvancedTaskManager] *)

Section Effects.
Context {rt : JsRuntime}.

(** The callback of [parsedData.tasks.map]. *)
Definition rehydrate_task (task : jsval) : completion jsval :=
  let props := spread task in
  dueDate <- get task "dueDate" ;;
  dueDate <- new_Date dueDate ;;
  let props := set_property "dueDate" (VDate dueDate) props in
  createdAt <- get task "createdAt" ;;
  createdAt <- new_Date createdAt ;;
  let props := set_property "createdAt" (VDate createdAt) props in
  completedAt <- get task "completedAt" ;;
  completedAt <-
    (if truthy completedAt
     then d <- new_Date completedAt ;; Normal (VDate d)
     else Normal VNull) ;;
  let props := set_property "completedAt" completedAt props in
  Normal (VObj props).

(** The body of the [try] block: the payload of [REPLACE_ALL]. *)
Definition parse_saved (savedTasks : stored_string) : completion jsval :=
  parsedData <- JSON_parse savedTasks ;;
  (* Convert date strings to Date objects *)
  tasks <- get parsedData "tasks" ;;
  tasks <- match tasks with
           | VArr items => Array_map rehydrate_task items
           | _ => Throw TypeError   (* [tasks.map] is not a function *)
           end ;;
  tags <- get parsedData "tags" ;;
  Normal (VObj [("tasks", VArr tasks); ("tags", tags)]).

(** [try { body } catch (error) { handler }] *)
Definition try_catch {A : Type} (body : completion A)
           (handler : js_error -> completion A) : completion A :=
  match body with
  | Normal a => Normal a
  | Throw error => handler error
  end.

(** A line written by [console.error]. *)
Record ConsoleEntry : Type := mkEntry {
  message : string;
  error : js_error
}.

(** What the load effect did to the outside: the intent it dispatched, if
    any, and the lines it wrote to the console. *)
Record LoadOutcome : Type := mkOutcome {
  dispatched : option jsval;         (* the payload of [REPLACE_ALL] *)
  console : list ConsoleEntry
}.

(** The load effect, run once after the first render. *)
Definition load_effect (slot : Storage) : completion LoadOutcome :=
  let savedTasks := slot in
  if saved_is_truthy savedTasks then
    match savedTasks with
    | Some savedTasks =>
        try_catch
          (tasksWithDates <- parse_saved savedTasks ;;
           Normal (mkOutcome (Some tasksWithDates) []))
          (fun error =>
             Normal (mkOutcome None
                       [mkEntry "Error parsing saved tasks:" error]))
    | None => Normal (mkOutcome None [])
    end
  else Normal (mkOutcome None []).

(** [localStorage.setItem("advancedTasks", JSON.stringify(state))] *)
Definition save_effect (state : TasksState.t) : Storage :=
  Some (JSON_stringify (value_of_TasksState state)).

(** The store after the load effect. A payload that does not have the
    type [TasksState] leaves the typed model. *)
Inductive Store : Type :=
| WellTyped (state : TasksState.t)
| IllTyped (payload : jsval).

(** The reducer applied to what the load effect dispatched. *)
Definition store_after_load (state : TasksState.t) (o : LoadOutcome) : Store :=
  match dispatched o with
  | None => WellTyped state
  | Some payload =>
      match Typed.TasksState_of payload with
      | Some newState => WellTyped (tasksReducer state (REPLACE_ALL newState))
      | None => IllTyped payload
      end
  end.

(** [load(save(state))]: the typed state that a component started on
    [state0] holds after loading what [save_effect state] stored. *)
Definition load_saved (state0 state : TasksState.t) : completion Store :=
  o <- load_effect (save_effect state) ;;
  Normal (store_after_load state0 o).
End Effects.

(* ===================================================================== *)
(** ** Properties of states that the theorems speak about                  *)
(* ===================================================================== *)

(** [completed == true] exactly when [completedAt] is present. *)
Definition completion_consistent (task : Task.t) : Prop :=
  Task.completed task = true <-> Task.completedAt task <> None.

Definition state_consistent (state : TasksState.t) : Prop :=
  Forall completion_consistent (TasksState.tasks state).

(** The tasks that an intent brings into the state. *)
Definition incoming_tasks (action : TaskAction) : list Task.t :=
  match action with
  | ADD_TASK payload => [payload]
  | EDIT_TASK payload => [payload]
  | REPLACE_ALL payload => TasksState.tasks payload
  | REORDER_TASKS payload => payload
  | TOGGLE_TASK _ _ | DELETE_TASK _ | ADD_TAG _ | EDIT_TAG _ | DELETE_TAG _ => []
  end.

(** The states that the component can hold: the seed data, and whatever the
    reducer makes of a held state. *)
Inductive reachable (Date_now : nat -> Z) : TasksState.t -> Prop :=
| reachable_initial : reachable Date_now (initialState Date_now)
| reachable_step state action :
    reachable Date_now state ->
    reachable Date_now (tasksReducer state action).

(** Every timestamp of the task denotes an instant. *)
Definition task_dates_valid (task : Task.t) : Prop :=
  is_valid_date (Task.dueDate task) /\
  is_valid_date (Task.createdAt task) /\
  match Task.completedAt task with
  | Some d => is_valid_date d
  | None => True
  end.

Definition state_dates_valid (state : TasksState.t) : Prop :=
  Forall task_dates_valid (TasksState.tasks state).

(** The contract between [toISOString] and the date parser (ECMA-262,
    Date.parse: a string produced by [toISOString] parses back to the same
    time value), and the fact that an ISO string is never empty. *)
Class DateStrings (rt : JsRuntime) : Prop := {
  parse_toISOString :
    forall t, Z.abs t <= max_time -> Date_parse (toISOString t) = ValidDate t;
  toISOString_nonempty :
    forall t, toISOString t <> ""
}.

(** The stages of the view as predicates on one task. *)
Definition matches_search (query : string) (task : Task.t) : bool :=
  if str_neq (JsString.trim query) "" then
    JsString.includes (JsString.toLowerCase (Task.name task))
                      (JsString.toLowerCase query)
    || JsString.includes (JsString.toLowerCase (Task.description task))
                         (JsString.toLowerCase query)
  else true.

Definition matches_status (f : StatusFilter) (task : Task.t) : bool :=
  match f with
  | StatusAll => true
  | StatusCompleted => Task.completed task
  | StatusActive => negb (Task.completed task)
  end.

Definition matches_priority (f : option number) (task : Task.t) : bool :=
  match f with
  | Some p => num_strict_eq (Task.priority task) p
  | None => true
  end.

Definition matches_tag (f : option string) (task : Task.t) : bool :=
  match f with
  | Some tg => array_includes (Task.tags task) tg
  | None => true
  end.

Definition matches_view (v : ViewParams) (task : Task.t) : bool :=
  matches_search (searchQuery v) task
  && matches_status (statusFilter v) task
  && matches_priority (priorityFilter v) task
  && matches_tag (tagFilter v) task.

Section Stages.
Context {rt : JsRuntime}.

(** The stages of the pipeline, one filter after the other, in the order
    of the source: search, status, priority, tag. *)
Definition staged (tasks : list Task.t) (v : ViewParams) : list Task.t :=
  filter (matches_tag (tagFilter v))
    (filter (matches_priority (priorityFilter v))
       (filter (matches_status (statusFilter v))
          (filter (matches_search (searchQuery v)) tasks))).

Definition comparator (k : SortKey) : Task.t -> Task.t -> number :=
  match k with
  | SortDueDate => byDueDate
  | SortPriority => byPriority
  | SortName => byName
  | SortCreatedAt => byCreatedAt
  end.

End Stages.

(** Descending priority, the order that [sortBy = "priority"] asks for. *)
Definition priority_ge (a b : Task.t) : Prop :=
  Task.priority b <= Task.priority a.

(** [task'] is [task] in every field but [completed] and [completedAt]. *)
Definition same_but_completion (task task' : Task.t) : Prop :=
  Task.id task' = Task.id task /\
  Task.name task' = Task.name task /\
  Task.description task' = Task.description task /\
  Task.dueDate task' = Task.dueDate task /\
  Task.priority task' = Task.priority task /\
  Task.tags task' = Task.tags task /\
  Task.createdAt task' = Task.createdAt task /\
  Task.position task' = Task.position task.

(* ===================================================================== *)
(** ** A runtime to compute with                                           *)
(* ===================================================================== *)

Module SampleRuntime.

(** Comparison of code units, a stand-in for the locale's collation. *)
Definition compare_code_units (a b : string) : Z :=
  match String.compare a b with
  | Lt => -1
  | Eq => 0
  | Gt => 1
  end.

(** Date strings of this runtime: the letter [T] followed by the time
    value in decimal. *)
Definition print_time (t : Z) : string :=
  String "T" (NilEmpty.string_of_int (Z.to_int t)).

Definition read_time (s : string) : Date :=
  match s with
  | String "T" r =>
      match NilEmpty.int_of_string r with
      | Some d => TimeClip (Z.of_int d)
      | None => InvalidDate
      end
  | _ => InvalidDate
  end.

Definition runtime : JsRuntime := {|
  localeCompare := compare_code_units;
  toISOString := print_time;
  Date_parse := read_time;
  Date_of_object := fun _ => Normal InvalidDate
|}.

(** The clock of the examples: every call of [Date.now()] returns
    2025-11-03T00:00:00.000Z. *)
Definition Date_now (_ : nat) : Z := 1762128000000.

End SampleRuntime.

From Stdlib Require Floats Uint63.

Set Warnings "-inexact-float".

(* ===================================================================== *)
(** ** Components around the core                                          *)
(* ===================================================================== *)

(** *** [TagBadge] *)

(** [state.tags.find((t) => t.id === tagId)]; [None] is [undefined], for
    which the badge renders nothing. *)
Definition TagBadge_tag (state : TasksState.t) (tagId : string)
  : option TaskTag.t :=
  find (fun t => str_eq (TaskTag.id t) tagId) (TasksState.tags state).

(** *** Numbers as text *)

(** [n.toString()] for an integer [n] of magnitude below 10^21: its decimal
    digits, after a minus sign when it is negative. *)
Definition Number_toString (n : Z) : string :=
  NilZero.string_of_int (Z.to_int n).

(** The largest integer up to which every integer is a JavaScript number. *)
Definition MAX_SAFE_INTEGER : Z := 9007199254740991.

(** *** The tag chips of the add and edit dialogs *)

(** The [onClick] of a tag chip: the id is taken out of the list when it is
    in it, and appended otherwise. *)
Definition toggle_tag (tags : list string) (tagId : string) : list string :=
  if array_includes tags tagId
  then filter (fun id => str_neq id tagId) tags
  else tags ++ [tagId].

(** *** [AddTaskForm] *)

(** [Omit<Task, "id" | "createdAt" | "completedAt" | "position">] *)
Module NewTask.
Record t : Type := mk {
  name : string;
  description : string;
  dueDate : Date;
  completed : bool;
  priority : Z;
  tags : list string
}.
End NewTask.

(** The form as it is first shown and after each added task; [today] is
    the [new Date()] of that moment. *)
Definition blank_task (today : Date) : NewTask.t :=
  NewTask.mk "" "" today false 3 [].

Record AddTaskForm : Type := mkAddTaskForm {
  isOpen : bool;
  newTask : NewTask.t
}.

(** [handleAddTask]: the intent it dispatches, if any, and the form it
    leaves. [Date_now k] is the [k]-th reading of the clock made by the
    handler: [Date.now()] for the id, [new Date()] for [createdAt],
    [new Date()] for the form that is shown next. *)
Definition handleAddTask (state : TasksState.t) (form : AddTaskForm)
           (Date_now : nat -> Z) : option TaskAction * AddTaskForm :=
  let newTask := newTask form in
  if str_eq (JsString.trim (NewTask.name newTask)) "" then (None, form)
  else
    let task :=
      Task.mk (Number_toString (Date_now 0%nat))
              (NewTask.name newTask) (NewTask.description newTask)
              (NewTask.dueDate newTask) (NewTask.completed newTask)
              (NewTask.priority newTask) (NewTask.tags newTask)
              (Date_of_number (Date_now 1%nat))
              None
              (Z.of_nat (List.length (TasksState.tasks state))) in
    (Some (ADD_TASK task),
     mkAddTaskForm false (blank_task (Date_of_number (Date_now 2%nat)))).

(** The store after the handler ran. *)
Definition after_add_task (state : TasksState.t) (form : AddTaskForm)
           (Date_now : nat -> Z) : TasksState.t :=
  match fst (handleAddTask state form Date_now) with
  | Some action => tasksReducer state action
  | None => state
  end.

(** *** [TagManager] *)

(** [Omit<TaskTag, "id">] *)
Module NewTag.
Record t : Type := mk {
  name : string;
  color : string
}.
End NewTag.

(** The local state of the dialog that the handlers read and write. *)
Record TagManager : Type := mkTagManager {
  newTag : NewTag.t;
  editingTag : option TaskTag.t
}.

Definition blank_tag : NewTag.t := NewTag.mk "" "#3b82f6".

Definition handleAddTag (tm : TagManager) (Date_now : Z)
  : option TaskAction * TagManager :=
  if str_eq (JsString.trim (NewTag.name (newTag tm))) "" then (None, tm)
  else
    let tag := TaskTag.mk (Number_toString Date_now)
                          (NewTag.name (newTag tm))
                          (NewTag.color (newTag tm)) in
    (Some (ADD_TAG tag), mkTagManager blank_tag (editingTag tm)).

Definition handleUpdateTag (tm : TagManager)
  : option TaskAction * TagManager :=
  match editingTag tm with
  | None => (None, tm)
  | Some editing =>
      if str_eq (JsString.trim (TaskTag.name editing)) "" then (None, tm)
      else (Some (EDIT_TAG editing), mkTagManager (newTag tm) None)
  end.

Definition handleDeleteTag (tm : TagManager) (id : string)
  : option TaskAction * TagManager :=
  (Some (DELETE_TAG id),
   match editingTag tm with
   | Some editing =>
       if str_eq (TaskTag.id editing) id
       then mkTagManager (newTag tm) None
       else tm
   | None => tm
   end).

(** What the user can do in the dialog. The inputs of the row that is being
    edited exist only while a tag is being edited, and the Edit button
    belongs to a row of [state.tags]. *)
Inductive TagManagerEvent : Type :=
| TypeNewName (value : string)
| PickNewColor (value : string)
| ClickAdd (Date_now : Z)
| ClickEdit (tag : TaskTag.t)
| TypeEditedName (value : string)
| PickEditedColor (value : string)
| ClickSave
| ClickCancel
| ClickDelete (id : string).

Definition apply_dispatch (state : TasksState.t) (action : option TaskAction)
  : TasksState.t :=
  match action with
  | Some a => tasksReducer state a
  | None => state
  end.

(** One event: the store and the dialog afterwards. *)
Definition TagManager_step (state : TasksState.t) (tm : TagManager)
           (event : TagManagerEvent) : TasksState.t * TagManager :=
  match event with
  | TypeNewName value =>
      (state, mkTagManager (NewTag.mk value (NewTag.color (newTag tm)))
                           (editingTag tm))
  | PickNewColor value =>
      (state, mkTagManager (NewTag.mk (NewTag.name (newTag tm)) value)
                           (editingTag tm))
  | ClickAdd Date_now =>
      let '(action, tm') := handleAddTag tm Date_now in
      (apply_dispatch state action, tm')
  | ClickEdit tag => (state, mkTagManager (newTag tm) (Some tag))
  | TypeEditedName value =>
      (state,
       match editingTag tm with
       | Some editing =>
           mkTagManager (newTag tm)
             (Some (TaskTag.mk (TaskTag.id editing) value (TaskTag.color editing)))
       | None => tm
       end)
  | PickEditedColor value =>
      (state,
       match editingTag tm with
       | Some editing =>
           mkTagManager (newTag tm)
             (Some (TaskTag.mk (TaskTag.id editing) (TaskTag.name editing) value))
       | None => tm
       end)
  | ClickSave =>
      let '(action, tm') := handleUpdateTag tm in
      (apply_dispatch state action, tm')
  | ClickCancel => (state, mkTagManager (newTag tm) None)
  | ClickDelete id =>
      let '(action, tm') := handleDeleteTag tm id in
      (apply_dispatch state action, tm')
  end.

(** The events that the rendered dialog offers. *)
Definition offered (state : TasksState.t) (event : TagManagerEvent) : Prop :=
  match event with
  | ClickEdit tag => In tag (TasksState.tags state)
  | _ => True
  end.

(** A session: events handled one after the other, each offered by the
    dialog as rendered at that moment. *)
Inductive TagManager_run :
  TasksState.t -> TagManager -> TasksState.t -> TagManager -> Prop :=
| run_done state tm : TagManager_run state tm state tm
| run_event state tm event state' tm' :
    offered state event ->
    TagManager_run (fst (TagManager_step state tm event))
                   (snd (TagManager_step state tm event)) state' tm' ->
    TagManager_run state tm state' tm'.

(** The tag in the editor is a tag of the store, by id. *)
Definition editor_points_at_a_tag (state : TasksState.t) (tm : TagManager)
  : Prop :=
  match editingTag tm with
  | Some editing =>
      exists tag, In tag (TasksState.tags state) /\
                  TaskTag.id tag = TaskTag.id editing
  | None => True
  end.

(** *** The selectors of the filter bar *)

(** [n.toString()] for a filter value. *)
Definition number_toString (n : number) : string :=
  match n with
  | Int z => Number_toString z
  | NaN => "NaN"
  end.

(** [value={priorityFilter?.toString() || "0"}] *)
Definition prioritySelectValue (priorityFilter : option number) : string :=
  match priorityFilter with
  | Some n =>
      let s := number_toString n in
      if JsString.truthy s then s else "0"
  | None => "0"
  end.

(** [value={tagFilter || "0"}] *)
Definition tagSelectValue (tagFilter : option string) : string :=
  match tagFilter with
  | Some s => if JsString.truthy s then s else "0"
  | None => "0"
  end.

(** *** [TaskAnalytics]: the priority histogram *)

(** [counts[i]++]; an index past the end is not used by the caller. *)
Fixpoint increment_at (i : nat) (counts : list Z) : list Z :=
  match counts, i with
  | [], _ => []
  | c :: rest, O => (c + 1) :: rest
  | c :: rest, S j => c :: increment_at j rest
  end.

(** The [forEach] that fills [priorityDistribution], task after task. *)
Definition priorityDistribution (tasks : list Task.t) : list Z :=
  fold_left
    (fun counts task =>
       if (1 <=? Task.priority task) && (Task.priority task <=? 5)
       then increment_at (Z.to_nat (Task.priority task - 1)) counts
       else counts)
    tasks [0; 0; 0; 0; 0].

(** The number of tasks of priority [p]. *)
Definition count_priority (p : Z) (tasks : list Task.t) : Z :=
  Z.of_nat (List.length (filter (fun task => Task.priority task =? p) tasks)).

(** *** [TaskAnalytics]: overdue, due today, upcoming *)

(** [a < b] and [a > b] on dates compare the time values; a comparison with
    NaN is false. [a.getTime() === b.getTime()] is false as well when a
    side is NaN. *)
Definition Date_lt (a b : Date) : bool :=
  match getTime a, getTime b with
  | Some x, Some y => x <? y
  | _, _ => false
  end.

Definition Date_same_time (a b : Date) : bool :=
  match getTime a, getTime b with
  | Some x, Some y => x =? y
  | _, _ => false
  end.

(** [items.filter(f).length] for a callback that reads the clock: the
    [k]-th call sees the [k]-th reading. *)
Fixpoint count_calls {A : Type} (f : nat -> A -> bool) (k : nat) (items : list A)
  : nat :=
  match items with
  | [] => O
  | x :: rest =>
      ((if f k x then 1 else 0) + count_calls f (S k) rest)%nat
  end.

Section DayCounts.
(** [local_midnight t] is the date that [d.setHours(0, 0, 0, 0)] leaves in
    a date [d] of time value [t]: the start of the local day of [t], as the
    time zone of the machine has it. *)
Variable local_midnight : Z -> Date.

(** [d.setHours(0, 0, 0, 0)]; an Invalid Date stays invalid. *)
Definition setHours0 (d : Date) : Date :=
  match d with
  | ValidDate t => local_midnight t
  | InvalidDate => InvalidDate
  end.

(** [today] in the call that reads [now] from the clock. *)
Definition today_of (now : Z) : Date := setHours0 (Date_of_number now).

Definition overdueTasks (Date_now : nat -> Z) (tasks : list Task.t) : Z :=
  Z.of_nat (count_calls
              (fun k task =>
                 let today := today_of (Date_now k) in
                 let dueDate := setHours0 (Task.dueDate task) in
                 negb (Task.completed task) && Date_lt dueDate today)
              0 tasks).

Definition dueTodayTasks (Date_now : nat -> Z) (tasks : list Task.t) : Z :=
  Z.of_nat (count_calls
              (fun k task =>
                 let today := today_of (Date_now k) in
                 let dueDate := setHours0 (Task.dueDate task) in
                 negb (Task.completed task) && Date_same_time dueDate today)
              0 tasks).

Definition upcomingTasks (Date_now : nat -> Z) (tasks : list Task.t) : Z :=
  Z.of_nat (count_calls
              (fun k task =>
                 let today := today_of (Date_now k) in
                 let dueDate := setHours0 (Task.dueDate task) in
                 negb (Task.completed task) && Date_lt today dueDate)
              0 tasks).
End DayCounts.

(** *** What a saved state looks like when it is loaded again *)

Section Reloaded.
Context {rt : JsRuntime}.

(** A [dueDate] or [createdAt] after [new Date(JSON.parse(JSON.stringify(d)))]. *)
Definition reloaded_date (d : Date) : Date :=
  match d with
  | ValidDate t => Date_parse (toISOString t)
  | InvalidDate => Date_of_number 0
  end.

(** A [completedAt] after the same trip and the truthiness test of the
    loader. *)
Definition reloaded_completedAt (d : option Date) : option Date :=
  match d with
  | Some (ValidDate t) =>
      if JsString.truthy (toISOString t)
      then Some (Date_parse (toISOString t))
      else None
  | Some InvalidDate => None
  | None => None
  end.

Definition reloaded_task (task : Task.t) : Task.t :=
  Task.mk (Task.id task) (Task.name task) (Task.description task)
          (reloaded_date (Task.dueDate task))
          (Task.completed task) (Task.priority task) (Task.tags task)
          (reloaded_date (Task.createdAt task))
          (reloaded_completedAt (Task.completedAt task))
          (Task.position task).

Definition reloaded_state (state : TasksState.t) : TasksState.t :=
  TasksState.mk (map reloaded_task (TasksState.tasks state))
                (TasksState.tags state).
End Reloaded.

(** The date fields that the loader rewrites. *)
Definition is_date_key (k : string) : bool :=
  str_eq k "dueDate" || str_eq k "createdAt" || str_eq k "completedAt".

(** A value that [new Date] converts without calling into the value. *)
Definition is_primitive (v : jsval) : bool :=
  match v with
  | VArr _ | VObj _ => false
  | _ => true
  end.

(** *** Unique ids and existing tags *)

Definition ids_unique (state : TasksState.t) : Prop :=
  NoDup (map Task.id (TasksState.tasks state)).

(** Every tag id that a task of [tasks] lists is the id of a tag of [tags]. *)
Definition tags_exist (tags : list TaskTag.t) (tasks : list Task.t) : Prop :=
  forall task tagId,
    In task tasks -> In tagId (Task.tags task) ->
    exists tag, In tag tags /\ TaskTag.id tag = tagId.

Definition no_dangling_tag (state : TasksState.t) : Prop :=
  tags_exist (TasksState.tags state) (TasksState.tasks state).

(** What an intent must bring for every listed tag id to exist. *)
Definition brings_existing_tags (state : TasksState.t) (action : TaskAction)
  : Prop :=
  match action with
  | ADD_TASK payload | EDIT_TASK payload =>
      tags_exist (TasksState.tags state) [payload]
  | REPLACE_ALL payload => no_dangling_tag payload
  | REORDER_TASKS payload => tags_exist (TasksState.tags state) payload
  | _ => True
  end.

(** The intents that neither add, remove nor reorder tasks. *)
Definition keeps_the_task_list (action : TaskAction) : bool :=
  match action with
  | TOGGLE_TASK _ _ | EDIT_TASK _ | ADD_TAG _ | EDIT_TAG _ | DELETE_TAG _ => true
  | ADD_TASK _ | DELETE_TASK _ | REPLACE_ALL _ | REORDER_TASKS _ => false
  end.

(** What an intent must bring for the ids to stay unique. *)
Definition brings_unique_ids (state : TasksState.t) (action : TaskAction)
  : Prop :=
  match action with
  | ADD_TASK payload =>
      ~ In (Task.id payload) (map Task.id (TasksState.tasks state))
  | REPLACE_ALL payload => ids_unique payload
  | REORDER_TASKS payload => NoDup (map Task.id payload)
  | _ => True
  end.

(** *** Orders that the view is sorted by *)

(** [a] is not later than [b], both being valid dates. *)
Definition Date_le (a b : Date) : Prop :=
  match getTime a, getTime b with
  | Some x, Some y => x <= y
  | _, _ => False
  end.

Definition dueDate_ascending (a b : Task.t) : Prop :=
  Date_le (Task.dueDate a) (Task.dueDate b).

Definition createdAt_descending (a b : Task.t) : Prop :=
  Date_le (Task.createdAt b) (Task.createdAt a).

Definition has_time (d : Date) : Prop := getTime d <> None.

(** The view parameters with another status filter. *)
Definition with_status (v : ViewParams) (s : StatusFilter) : ViewParams :=
  mkView s (priorityFilter v) (tagFilter v) (sortBy v) (searchQuery v).

(** The view parameters with another search query. *)
Definition with_query (v : ViewParams) (q : string) : ViewParams :=
  mkView (statusFilter v) (priorityFilter v) (tagFilter v) (sortBy v) q.

(** The sort keys whose comparator is a total preorder on [tasks]: the
    priority always, a date when every task has a valid one. The name is
    compared by the locale. *)
Definition key_orders (k : SortKey) (tasks : list Task.t) : Prop :=
  match k with
  | SortPriority => True
  | SortDueDate => forall task, In task tasks -> has_time (Task.dueDate task)
  | SortCreatedAt => forall task, In task tasks -> has_time (Task.createdAt task)
  | SortName => False
  end.

(** A string made of white space only (the empty string included). *)
Fixpoint all_white (s : string) : bool :=
  match s with
  | EmptyString => true
  | String c r => JsString.is_white_space c && all_white r
  end.

(** A decimal digit, and a string of decimal digits. *)
Definition is_digit (c : ascii) : bool :=
  let n := nat_of_ascii c in ((48 <=? n) && (n <=? 57))%nat.

Fixpoint all_digits (s : string) : bool :=
  match s with
  | EmptyString => true
  | String c r => is_digit c && all_digits r
  end.

(** A task with its position blanked, to compare tasks up to position. *)
Definition without_position (task : Task.t) : Task.t :=
  Task.with_position task 0.

(** *** The add dialog as a whole *)

(** The options of a priority select in the dialogs. *)
Inductive PriorityOption : Type :=
| VeryLow | Low | Medium | High | VeryHigh.

(** The [value] attribute of the option. *)
Definition option_value (o : PriorityOption) : string :=
  match o with
  | VeryLow => "1"
  | Low => "2"
  | Medium => "3"
  | High => "4"
  | VeryHigh => "5"
  end.

(** What the user can do in the add dialog. *)
Inductive AddTaskFormEvent : Type :=
| OpenChange (open : bool)
| TypeTaskName (value : string)
| TypeTaskDescription (value : string)
| SelectDueDate (date : option Date)        (* [None]: the day was unselected *)
| SelectPriority (o : PriorityOption)
| ClickTagChip (tagId : string)
| ClickAddTask (Date_now : nat -> Z).

(** [setNewTask({ ...newTask, priority: Number.parseInt(value) })] for the
    value of an option; the five values all parse to a number. *)
Definition set_priority (t : NewTask.t) (o : PriorityOption) : NewTask.t :=
  match ParseInt.parseInt (option_value o) with
  | Int z =>
      NewTask.mk (NewTask.name t) (NewTask.description t) (NewTask.dueDate t)
                 (NewTask.completed t) z (NewTask.tags t)
  | NaN => t
  end.

(** One event of the add dialog: what it dispatches and the form after. *)
Definition AddTaskForm_step (state : TasksState.t) (form : AddTaskForm)
           (event : AddTaskFormEvent) : option TaskAction * AddTaskForm :=
  let t := newTask form in
  match event with
  | OpenChange open => (None, mkAddTaskForm open t)
  | TypeTaskName value =>
      (None, mkAddTaskForm (isOpen form)
               (NewTask.mk value (NewTask.description t) (NewTask.dueDate t)
                           (NewTask.completed t) (NewTask.priority t)
                           (NewTask.tags t)))
  | TypeTaskDescription value =>
      (None, mkAddTaskForm (isOpen form)
               (NewTask.mk (NewTask.name t) value (NewTask.dueDate t)
                           (NewTask.completed t) (NewTask.priority t)
                           (NewTask.tags t)))
  | SelectDueDate (Some date) =>
      (None, mkAddTaskForm (isOpen form)
               (NewTask.mk (NewTask.name t) (NewTask.description t) date
                           (NewTask.completed t) (NewTask.priority t)
                           (NewTask.tags t)))
  | SelectDueDate None => (None, form)
  | SelectPriority o =>
      (None, mkAddTaskForm (isOpen form) (set_priority t o))
  | ClickTagChip tagId =>
      (None, mkAddTaskForm (isOpen form)
               (NewTask.mk (NewTask.name t) (NewTask.description t)
                           (NewTask.dueDate t) (NewTask.completed t)
                           (NewTask.priority t)
                           (toggle_tag (NewTask.tags t) tagId)))
  | ClickAddTask Date_now => handleAddTask state form Date_now
  end.

(** The forms that the dialog can hold: the blank one it is mounted with,
    and what an event makes of a form, whatever the store is then. *)
Inductive form_reachable : AddTaskForm -> Prop :=
| form_initial today : form_reachable (mkAddTaskForm false (blank_task today))
| form_step form state event :
    form_reachable form ->
    form_reachable (snd (AddTaskForm_step state form event)).

(** No tag of the state has a blank name. *)
Definition tags_are_named (state : TasksState.t) : Prop :=
  forall tag, In tag (TasksState.tags state) ->
              all_white (TaskTag.name tag) = false.

(** The order that each orderly key sorts by. *)
Definition order_of (k : SortKey) : Task.t -> Task.t -> Prop :=
  match k with
  | SortPriority => priority_ge
  | SortDueDate => dueDate_ascending
  | SortCreatedAt => createdAt_descending
  | SortName => fun _ _ => True
  end.

(** The tasks on which the comparator of the key is defined. *)
Definition comparable (k : SortKey) (task : Task.t) : Prop :=
  match k with
  | SortPriority | SortName => True
  | SortDueDate => has_time (Task.dueDate task)
  | SortCreatedAt => has_time (Task.createdAt task)
  end.

(** *** [getContrastColor] *)

Module Contrast.
Import Floats.PrimFloat.

(** [s.replace("#", "")]: the first ["#"] of [s] is taken out. *)
Fixpoint remove_first_hash (s : string) : string :=
  match s with
  | EmptyString => EmptyString
  | String c r =>
      if Ascii.eqb c "#" then r else String c (remove_first_hash r)
  end.

(** [s.substr(start, length)] *)
Definition substr (s : string) (start length : nat) : string :=
  String.substring start length s.

(** [Number.parseInt(s, 16)]: leading white space, an optional sign, an
    optional [0x] prefix, then the longest prefix of hexadecimal digits;
    NaN when there is no digit. *)
Definition parseInt16 (s : string) : number :=
  let s := JsString.trimStart s in
  let '(sign, s) :=
    match s with
    | String "-" r => (-1, r)
    | String "+" r => (1, r)
    | _ => (1, s)
    end in
  let s := match ParseInt.strip_hex_prefix s with
           | Some r => r
           | None => s
           end in
  match ParseInt.digits 16 None s with
  | Some m => Int (sign * m)
  | None => NaN
  end.

(** An integer of small magnitude as a binary64 number (the integers met
    here have at most two hexadecimal digits). *)
Definition float_of_integer (z : Z) : float :=
  if z <? 0 then opp (of_uint63 (Uint63.of_Z (- z)))
  else of_uint63 (Uint63.of_Z z).

Definition to_float (n : number) : float :=
  match n with
  | Int z => float_of_integer z
  | NaN => nan
  end.

(** Helper function to determine text color based on background color.
    The arithmetic is the one of binary64, operation by operation. *)
Definition getContrastColor (hexColor : string) : string :=
  (* Remove the # if it exists *)
  let color := remove_first_hash hexColor in
  (* Convert to RGB *)
  let r := to_float (parseInt16 (substr color 0 2)) in
  let g := to_float (parseInt16 (substr color 2 2)) in
  let b := to_float (parseInt16 (substr color 4 2)) in
  (* Calculate luminance *)
  let luminance := ((0.299 * r + 0.587 * g + 0.114 * b) / 255)%float in
  (* Return black or white based on luminance *)
  if ltb 0.5%float luminance then "#000000" else "#ffffff".

(** A colour as a colour input reports it: [#rrggbb] in lower-case
    hexadecimal. *)
Definition hex_digit (d : Z) : ascii :=
  if d <? 10 then ascii_of_nat (Z.to_nat (48 + d))
  else ascii_of_nat (Z.to_nat (87 + d)).

Definition hex2 (v : Z) : string :=
  String (hex_digit (v / 16)) (String (hex_digit (v mod 16)) EmptyString).

Definition color_of (r g b : Z) : string :=
  String "#" (hex2 r ++ hex2 g ++ hex2 b).

(** The values of a colour channel. *)
Definition channels : list Z := map Z.of_nat (seq 0 256).

(** What the theorem on greys and pure colours says about one value. *)
Definition grey_and_pure_ok (v : Z) : bool :=
  String.eqb (getContrastColor (color_of v v v))
             (if 128 <=? v then "#000000" else "#ffffff")
  && String.eqb (getContrastColor (color_of v 0 0)) "#ffffff"
  && String.eqb (getContrastColor (color_of 0 v 0))
                (if 218 <=? v then "#000000" else "#ffffff")
  && String.eqb (getContrastColor (color_of 0 0 v)) "#ffffff".

End Contrast.

(* ===================================================================== *)
(** * Theorems                                                             *)
(* ===================================================================== *)

(** ** The embedding at work *)

Example trim_spaces : JsString.trim "  due soon  " = "due soon".
Proof. reflexivity. Qed.

Example includes_is_case_sensitive :
  JsString.includes "Update Resume" "resume" = false /\
  JsString.includes (JsString.toLowerCase "Update Resume") "resume" = true.
Proof. split; reflexivity. Qed.

Example parseInt_samples :
  ParseInt.parseInt "3" = Int 3 /\
  ParseInt.parseInt "  -0x1F" = Int (-31) /\
  ParseInt.parseInt "12px" = Int 12 /\
  ParseInt.parseInt "px" = NaN.
Proof. repeat split. Qed.

(** The seed data as first displayed: by due date, the overdue task first. *)
Example initial_view :
  map Task.id
      (@filteredAndSortedTasks SampleRuntime.runtime
         (TasksState.tasks (initialState SampleRuntime.Date_now)) initialView)
  = ["3"; "4"; "1"; "2"].
Proof. reflexivity. Qed.

(** A search for "re" finds all four seed tasks; by name they come out as
    "Complete...", "Prepare...", "Read...", "Update...". *)
Example search_and_sort_by_name :
  map Task.id
      (@filteredAndSortedTasks SampleRuntime.runtime
         (TasksState.tasks (initialState SampleRuntime.Date_now))
         (mkView StatusAll None None SortName "rE"))
  = ["1"; "4"; "2"; "3"].
Proof. reflexivity. Qed.

(** The stable sort keeps ties in their order of arrival. *)
Example sort_is_stable_on_ties :
  Array_sort (fun a b : Z * string => Int (fst a - fst b))
             [(2, "b"); (1, "x"); (2, "a"); (1, "y")]
  = [(1, "x"); (1, "y"); (2, "b"); (2, "a")].
Proof. reflexivity. Qed.

(** Without a filter a drag permutes the state and renumbers it. *)
Example drag_without_filter :
  let state := initialState SampleRuntime.Date_now in
  let displayed :=
    @filteredAndSortedTasks SampleRuntime.runtime (TasksState.tasks state)
                            initialView in
  option_map (fun s => map (fun t => (Task.id t, Task.position t))
                           (TasksState.tasks s))
             (after_drag state displayed (mkDrop 3 (Some 0%nat)))
  = Some [("2", 0); ("3", 1); ("4", 2); ("1", 3)].
Proof. reflexivity. Qed.

(** ** The reducer *)

Lemma str_eq_true a b : str_eq a b = true <-> a = b.
Proof. unfold str_eq. apply String.eqb_eq. Qed.

Lemma str_neq_true a b : str_neq a b = true <-> a <> b.
Proof.
  unfold str_neq. rewrite negb_true_iff. apply String.eqb_neq.
Qed.

Lemma str_eq_false a b : str_eq a b = false <-> a <> b.
Proof. unfold str_eq. apply String.eqb_neq. Qed.

(** Mapping a replacement over a list in which nothing matches changes
    nothing. *)
Lemma map_replace_none {A : Type} (hit : A -> bool) (new : A -> A) (l : list A) :
  (forall x, In x l -> hit x = false) ->
  map (fun x => if hit x then new x else x) l = l.
Proof.
  induction l as [| x l IH]; intros Hno; simpl.
  - reflexivity.
  - rewrite (Hno x (or_introl eq_refl)).
    f_equal. apply IH. intros y Hy. apply Hno. now right.
Qed.

(** C4. After [DELETE_TAG id] the tag collection holds no tag whose id is
    [id], and no task of the state lists [id] among its tags; this holds
    for every prior state and every id. *)
Theorem delete_tag_leaves_no_reference (state : TasksState.t) (id : string) :
  let state' := tasksReducer state (DELETE_TAG id) in
  (forall tag, In tag (TasksState.tags state') -> TaskTag.id tag <> id) /\
  (forall task, In task (TasksState.tasks state') -> ~ In id (Task.tags task)).
Proof.
  simpl. split.
  - intros tag Htag. apply filter_In in Htag as [_ Hne].
    now apply str_neq_true.
  - intros task Htask Hin.
    apply in_map_iff in Htask as [old [<- _]]. simpl in Hin.
    apply filter_In in Hin as [_ Hne].
    apply str_neq_true in Hne. now apply Hne.
Qed.

(** C9. An [EDIT_TASK] whose payload id is the id of no task, and an
    [EDIT_TAG] whose payload id is the id of no tag, both return the state
    they were given: every task and every tag is still there, unchanged and
    in place. *)
Theorem edit_unknown_id_is_noop
        (state : TasksState.t) (task : Task.t) (tag : TaskTag.t)
        (Htask : forall t, In t (TasksState.tasks state) -> Task.id t <> Task.id task)
        (Htag : forall g, In g (TasksState.tags state) -> TaskTag.id g <> TaskTag.id tag) :
  tasksReducer state (EDIT_TASK task) = state /\
  tasksReducer state (EDIT_TAG tag) = state.
Proof.
  destruct state as [tasks tags]. simpl in *. split; f_equal.
  - apply (map_replace_none (fun t => str_eq (Task.id t) (Task.id task))
                            (fun _ => task)).
    intros t Ht. apply str_eq_false. now apply Htask.
  - apply (map_replace_none (fun g => str_eq (TaskTag.id g) (TaskTag.id tag))
                            (fun _ => tag)).
    intros g Hg. apply str_eq_false. now apply Htag.
Qed.

Lemma edit_unknown_id_is_noop_witness :
  let state := initialState SampleRuntime.Date_now in
  let task := Task.mk "99" "Ghost" "" (ValidDate 0) false 3 [] (ValidDate 0) None 7 in
  let tag := TaskTag.mk "99" "Ghost" "#000000" in
  tasksReducer state (EDIT_TASK task) = state /\
  tasksReducer state (EDIT_TAG tag) = state.
Proof.
  apply edit_unknown_id_is_noop.
  - intros t Ht. simpl in Ht.
    repeat (destruct Ht as [<- | Ht]; [simpl; discriminate |]).
    destruct Ht.
  - intros g Hg. simpl in Hg.
    repeat (destruct Hg as [<- | Hg]; [simpl; discriminate |]).
    destruct Hg.
Defined.

Lemma same_but_completion_with (task : Task.t) (c : bool) (d : option Date) :
  same_but_completion task (Task.with_completion task c d).
Proof. unfold same_but_completion. simpl. repeat split. Qed.

(** What [TOGGLE_TASK] does at one index of the task list. *)
Lemma toggle_nth (state : TasksState.t) (id : string) (date : Date)
      (i : nat) (task : Task.t) :
  nth_error (TasksState.tasks state) i = Some task ->
  nth_error (TasksState.tasks (tasksReducer state (TOGGLE_TASK id date))) i =
  Some (if str_eq (Task.id task) id
        then Task.with_completion task (negb (Task.completed task))
               (if negb (Task.completed task) then Some date else None)
        else task).
Proof.
  intros Hnth. simpl. rewrite nth_error_map, Hnth. reflexivity.
Qed.

(** C3, as amended. Let the state hold [task] at index [i] and let [id] be
    its id. [TOGGLE_TASK id date] leaves at that index the same task with
    [completed] negated, and with [completedAt] equal to [date] when the
    task has become completed and absent when it has become uncompleted.
    A second [TOGGLE_TASK id date2] brings [completed] back to its original
    value; [completedAt] is then absent if the task was originally not
    completed, and is [date2] if it was originally completed. In particular
    a task that starts uncompleted with no [completedAt] is restored
    exactly. *)
Theorem toggle_task_flips_and_twice_restores
        (state : TasksState.t) (id : string) (date date2 : Date)
        (i : nat) (task : Task.t)
        (Hnth : nth_error (TasksState.tasks state) i = Some task)
        (Hid : Task.id task = id) :
  let once := tasksReducer state (TOGGLE_TASK id date) in
  let twice := tasksReducer once (TOGGLE_TASK id date2) in
  (exists task',
      nth_error (TasksState.tasks once) i = Some task' /\
      same_but_completion task task' /\
      Task.completed task' = negb (Task.completed task) /\
      Task.completedAt task' =
        (if Task.completed task' then Some date else None)) /\
  (exists task'',
      nth_error (TasksState.tasks twice) i = Some task'' /\
      same_but_completion task task'' /\
      Task.completed task'' = Task.completed task /\
      Task.completedAt task'' =
        (if Task.completed task then Some date2 else None) /\
      (Task.completed task = false -> Task.completedAt task'' = None) /\
      (Task.completed task = false -> Task.completedAt task = None ->
       task'' = task)).
Proof.
  intros once twice.
  pose proof (toggle_nth state id date i task Hnth) as H1.
  rewrite (proj2 (str_eq_true (Task.id task) id) Hid) in H1.
  fold once in H1.
  pose proof (toggle_nth once id date2 i _ H1) as H2.
  simpl Task.id in H2.
  rewrite (proj2 (str_eq_true (Task.id task) id) Hid) in H2.
  fold twice in H2. split.
  - eexists. split; [exact H1 |]. split.
    + apply same_but_completion_with.
    + simpl. split; reflexivity.
  - eexists. split; [exact H2 |]. split.
    + unfold same_but_completion. simpl. repeat split.
    + simpl. rewrite negb_involutive.
      destruct task as [a b c d comp e f g cAt h]; simpl.
      destruct comp; simpl.
      * repeat split; try discriminate.
      * repeat split. intros _ ->. reflexivity.
Qed.

Lemma toggle_task_flips_and_twice_restores_witness :
  let state := initialState SampleRuntime.Date_now in
  let task := nth 0 (TasksState.tasks state) (Task.mk "" "" "" InvalidDate false 0 [] InvalidDate None 0) in
  let once := tasksReducer state (TOGGLE_TASK "1" (ValidDate 5)) in
  let twice := tasksReducer once (TOGGLE_TASK "1" (ValidDate 9)) in
  (exists task',
      nth_error (TasksState.tasks once) 0 = Some task' /\
      same_but_completion task task' /\
      Task.completed task' = negb (Task.completed task) /\
      Task.completedAt task' =
        (if Task.completed task' then Some (ValidDate 5) else None)) /\
  (exists task'',
      nth_error (TasksState.tasks twice) 0 = Some task'' /\
      same_but_completion task task'' /\
      Task.completed task'' = Task.completed task /\
      Task.completedAt task'' =
        (if Task.completed task then Some (ValidDate 9) else None) /\
      (Task.completed task = false -> Task.completedAt task'' = None) /\
      (Task.completed task = false -> Task.completedAt task = None ->
       task'' = task)).
Proof.
  apply (@toggle_task_flips_and_twice_restores
           (initialState SampleRuntime.Date_now) "1" (ValidDate 5) (ValidDate 9) 0%nat).
  - reflexivity.
  - reflexivity.
Defined.

(** C3, counterexample. A task stored as completed but without a
    [completedAt] satisfies the assumption of the claim (its [completedAt]
    is absent); after two toggles its [completedAt] is the time of the
    second toggle, not absent. *)
Lemma toggle_twice_sets_completedAt_counterexample :
  let task := Task.mk "1" "Pay rent" "" (ValidDate 0) true 3 []
                      (ValidDate 0) None 0 in
  let state := TasksState.mk [task] [] in
  let twice := tasksReducer (tasksReducer state (TOGGLE_TASK "1" (ValidDate 5)))
                            (TOGGLE_TASK "1" (ValidDate 9)) in
  Task.completedAt task = None /\
  TasksState.tasks twice =
    [Task.mk "1" "Pay rent" "" (ValidDate 0) true 3 [] (ValidDate 0)
             (Some (ValidDate 9)) 0] /\
  ~ (forall task'', In task'' (TasksState.tasks twice) ->
                    Task.completedAt task'' = None).
Proof.
  simpl. repeat split.
  intros H. specialize (H _ (or_introl eq_refl)). discriminate.
Qed.

(** ** The completion invariant *)

Lemma with_completion_consistent (task : Task.t) (date : Date) :
  completion_consistent
    (Task.with_completion task (negb (Task.completed task))
       (if negb (Task.completed task) then Some date else None)).
Proof.
  unfold completion_consistent. simpl.
  destruct (negb (Task.completed task)); split; intro H;
    try reflexivity; try discriminate; now contradiction H.
Qed.

Lemma with_tags_consistent (task : Task.t) (l : list string) :
  completion_consistent task ->
  completion_consistent (Task.with_tags task l).
Proof. unfold completion_consistent. simpl. tauto. Qed.

(** C2, as amended. The reducer preserves "[completed] is true exactly when
    [completedAt] is present" whenever the tasks that the intent itself
    carries ([ADD_TASK], [EDIT_TASK], [REPLACE_ALL], [REORDER_TASKS]) obey
    it; [TOGGLE_TASK], [DELETE_TASK], [ADD_TAG], [EDIT_TAG] and
    [DELETE_TAG] carry no task and preserve it unconditionally. *)
Theorem reducer_preserves_completion_consistency
        (state : TasksState.t) (action : TaskAction)
        (Hstate : state_consistent state)
        (Hin : Forall completion_consistent (incoming_tasks action)) :
  state_consistent (tasksReducer state action).
Proof.
  unfold state_consistent in *.
  destruct action as [p | id date | id | p | s | l | g | g | id]; simpl in *.
  - apply Forall_app. split; assumption.
  - apply Forall_forall. intros t Ht.
    apply in_map_iff in Ht as [old [<- Hold]].
    destruct (str_eq (Task.id old) id).
    + apply with_completion_consistent.
    + rewrite Forall_forall in Hstate. now apply Hstate.
  - apply Forall_forall. intros t Ht.
    apply filter_In in Ht as [Ht _].
    rewrite Forall_forall in Hstate. now apply Hstate.
  - apply Forall_forall. intros t Ht.
    apply in_map_iff in Ht as [old [<- Hold]].
    destruct (str_eq (Task.id old) (Task.id p)).
    + now inversion Hin.
    + rewrite Forall_forall in Hstate. now apply Hstate.
  - assumption.
  - assumption.
  - assumption.
  - assumption.
  - apply Forall_forall. intros t Ht.
    apply in_map_iff in Ht as [old [<- Hold]].
    apply with_tags_consistent.
    rewrite Forall_forall in Hstate. now apply Hstate.
Qed.

Lemma initialState_consistent (Date_now : nat -> Z) :
  state_consistent (initialState Date_now).
Proof.
  unfold state_consistent, initialState. simpl.
  repeat constructor; unfold completion_consistent; simpl;
    intros; try discriminate; try congruence.
Qed.

Lemma reducer_preserves_completion_consistency_witness :
  state_consistent
    (tasksReducer (initialState SampleRuntime.Date_now)
       (EDIT_TASK (Task.mk "1" "Complete React Project" "Done"
                     (ValidDate 0) true 4 ["1"] (ValidDate 0)
                     (Some (ValidDate 7)) 0))).
Proof.
  apply reducer_preserves_completion_consistency.
  - apply initialState_consistent.
  - constructor; [| constructor].
    unfold completion_consistent. simpl. split; intros; congruence.
Defined.

(** C2, counterexample. The seed state is reachable and consistent, yet an
    [EDIT_TASK] whose payload is completed without a [completedAt] yields a
    state with an inconsistent task: the reducer stores the payload as it
    comes. *)
Lemma edit_task_breaks_completion_consistency_counterexample :
  let state := initialState SampleRuntime.Date_now in
  let payload := Task.mk "1" "Complete React Project" "Done"
                         (ValidDate 0) true 4 ["1"] (ValidDate 0) None 0 in
  reachable SampleRuntime.Date_now state /\
  state_consistent state /\
  ~ state_consistent (tasksReducer state (EDIT_TASK payload)).
Proof.
  simpl. split; [constructor |]. split; [apply initialState_consistent |].
  intros H. unfold state_consistent in H. simpl in H.
  inversion H as [| t l Hbad _]; subst.
  unfold completion_consistent in Hbad. simpl in Hbad.
  destruct Hbad as [Hbad _]. now apply Hbad.
Qed.

(** ** Analytics *)





(** ** The stable sort *)

Section ArraySortFacts.
Context {A : Type}.
Variable cmp : A -> A -> number.

Lemma sort_insert_perm (x : A) (l : list A) :
  Permutation (sort_insert cmp x l) (x :: l).
Proof.
  induction l as [| y rest IH]; simpl.
  - apply Permutation_refl.
  - destruct (verdict cmp x y <=? 0).
    + apply Permutation_refl.
    + eapply perm_trans; [apply perm_skip, IH | apply perm_swap].
Qed.

Lemma Array_sort_perm (l : list A) : Permutation (Array_sort cmp l) l.
Proof.
  induction l as [| x rest IH]; simpl.
  - constructor.
  - eapply perm_trans; [apply sort_insert_perm | now apply perm_skip].
Qed.

(** An order [ge] that the comparator decides: [x] goes in front of [y]
    exactly when [ge x y]. *)
Variable ge : A -> A -> Prop.
Hypothesis ge_trans : forall a b c, ge a b -> ge b c -> ge a c.
Hypothesis verdict_ge : forall a b, verdict cmp a b <= 0 -> ge a b.
Hypothesis verdict_lt : forall a b, 0 < verdict cmp a b -> ge b a.

Lemma sort_insert_sorted (x : A) (l : list A) :
  StronglySorted ge l -> StronglySorted ge (sort_insert cmp x l).
Proof.
  induction 1 as [| y rest Hsorted IH Hall]; simpl.
  - repeat constructor.
  - destruct (verdict cmp x y <=? 0) eqn:Hv.
    + apply Z.leb_le in Hv. constructor.
      * now constructor.
      * constructor; [now apply verdict_ge |].
        eapply Forall_impl; [| exact Hall].
        intros z Hz. eapply ge_trans; [apply verdict_ge, Hv | exact Hz].
    + apply Z.leb_gt in Hv. constructor; [exact IH |].
      apply Forall_forall. intros z Hz.
      apply (Permutation_in _ (sort_insert_perm x rest)) in Hz.
      destruct Hz as [<- | Hz]; [now apply verdict_lt |].
      rewrite Forall_forall in Hall. now apply Hall.
Qed.

Lemma Array_sort_sorted (l : list A) : StronglySorted ge (Array_sort cmp l).
Proof.
  induction l as [| x rest IH]; simpl.
  - constructor.
  - now apply sort_insert_sorted.
Qed.

(** Stability: elements that the comparator cannot tell apart from one
    another, selected by [same], keep their relative order. *)
Variable same : A -> bool.
Hypothesis same_tie :
  forall a b, same a = true -> same b = true -> verdict cmp a b <= 0.

Lemma sort_insert_stable (x : A) (l : list A) :
  filter same (sort_insert cmp x l) = filter same (x :: l).
Proof.
  induction l as [| y rest IH]; simpl.
  - reflexivity.
  - destruct (verdict cmp x y <=? 0) eqn:Hv; simpl.
    + reflexivity.
    + apply Z.leb_gt in Hv. rewrite IH. simpl.
      destruct (same x) eqn:Hx, (same y) eqn:Hy; try reflexivity.
      pose proof (same_tie x y Hx Hy). lia.
Qed.

Lemma Array_sort_stable (l : list A) :
  filter same (Array_sort cmp l) = filter same l.
Proof.
  induction l as [| x rest IH]; simpl.
  - reflexivity.
  - rewrite sort_insert_stable. simpl. now rewrite IH.
Qed.
End ArraySortFacts.

(** ** The derived view *)

Lemma filter_filter {A : Type} (f g : A -> bool) (l : list A) :
  filter g (filter f l) = filter (fun x => f x && g x) l.
Proof.
  induction l as [| x rest IH]; simpl.
  - reflexivity.
  - destruct (f x); simpl; [destruct (g x) |]; now rewrite IH.
Qed.

Lemma filter_all {A : Type} (l : list A) : filter (fun _ => true) l = l.
Proof. induction l as [| x rest IH]; simpl; [| rewrite IH]; reflexivity. Qed.

Section ViewFacts.
Context {rt : JsRuntime}.

Lemma filteredAndSortedTasks_staged (tasks : list Task.t) (v : ViewParams) :
  filteredAndSortedTasks tasks v =
  Array_sort (comparator (sortBy v)) (staged tasks v).
Proof.
  unfold filteredAndSortedTasks, staged.
  assert (Hsearch :
    (if str_neq (JsString.trim (searchQuery v)) ""
     then filter (fun task =>
                    JsString.includes (JsString.toLowerCase (Task.name task))
                      (JsString.toLowerCase (searchQuery v))
                    || JsString.includes
                         (JsString.toLowerCase (Task.description task))
                         (JsString.toLowerCase (searchQuery v))) tasks
     else tasks) = filter (matches_search (searchQuery v)) tasks).
  { unfold matches_search.
    destruct (str_neq (JsString.trim (searchQuery v)) "").
    - reflexivity.
    - now rewrite filter_all. }
  cbv zeta. rewrite Hsearch.
  set (l1 := filter (matches_search (searchQuery v)) tasks).
  assert (Hstatus :
    match statusFilter v with
    | StatusAll => l1
    | StatusCompleted => filter (fun task => Task.completed task) l1
    | StatusActive => filter (fun task => negb (Task.completed task)) l1
    end = filter (matches_status (statusFilter v)) l1).
  { unfold matches_status. destruct (statusFilter v);
      [now rewrite filter_all | reflexivity | reflexivity]. }
  rewrite Hstatus.
  set (l2 := filter (matches_status (statusFilter v)) l1).
  assert (Hprio :
    match priorityFilter v with
    | Some p => filter (fun task => num_strict_eq (Task.priority task) p) l2
    | None => l2
    end = filter (matches_priority (priorityFilter v)) l2).
  { unfold matches_priority. destruct (priorityFilter v);
      [reflexivity | now rewrite filter_all]. }
  rewrite Hprio.
  set (l3 := filter (matches_priority (priorityFilter v)) l2).
  assert (Htag :
    match tagFilter v with
    | Some tg => filter (fun task => array_includes (Task.tags task) tg) l3
    | None => l3
    end = filter (matches_tag (tagFilter v)) l3).
  { unfold matches_tag. destruct (tagFilter v);
      [reflexivity | now rewrite filter_all]. }
  rewrite Htag.
  destruct (sortBy v); reflexivity.
Qed.

Lemma staged_matches_view (tasks : list Task.t) (v : ViewParams) :
  staged tasks v = filter (matches_view v) tasks.
Proof.
  unfold staged. rewrite !filter_filter.
  apply filter_ext. intros task. unfold matches_view.
  now rewrite !andb_assoc.
Qed.
End ViewFacts.

Lemma byPriority_verdict (a b : Task.t) :
  verdict byPriority a b = Task.priority b - Task.priority a.
Proof. reflexivity. Qed.

(** C5. Four tasks of priorities 4, 2, 3, 5, of which only the one of
    priority 3 is completed, viewed with an empty search, the status filter
    "active", no priority filter, no tag filter and the sort key "priority",
    are displayed as the tasks of priority 5, 4, 2, in this order, without
    the completed one. In general, under the sort key "priority" the view is
    the search, status, priority and tag filters applied in this order,
    followed by the stable sort on descending priority: it holds exactly the
    tasks that pass the four filters, in descending priority, tasks of equal
    priority in the order they have in the state. *)
Theorem view_filters_in_order_then_sorts_by_priority
        (rt : JsRuntime) (t1 t2 t3 t4 : Task.t)
        (Hp1 : Task.priority t1 = 4) (Hp2 : Task.priority t2 = 2)
        (Hp3 : Task.priority t3 = 3) (Hp4 : Task.priority t4 = 5)
        (Hc1 : Task.completed t1 = false) (Hc2 : Task.completed t2 = false)
        (Hc3 : Task.completed t3 = true) (Hc4 : Task.completed t4 = false) :
  filteredAndSortedTasks [t1; t2; t3; t4]
    (mkView StatusActive None None SortPriority "") = [t4; t1; t2] /\
  (forall (tasks : list Task.t) (v : ViewParams),
      sortBy v = SortPriority ->
      let shown := filteredAndSortedTasks tasks v in
      shown = Array_sort byPriority
                (filter (matches_tag (tagFilter v))
                   (filter (matches_priority (priorityFilter v))
                      (filter (matches_status (statusFilter v))
                         (filter (matches_search (searchQuery v)) tasks)))) /\
      Permutation shown (filter (matches_view v) tasks) /\
      StronglySorted priority_ge shown /\
      (forall p : Z,
          filter (fun task => Task.priority task =? p) shown =
          filter (fun task => Task.priority task =? p)
                 (filter (matches_view v) tasks))).
Proof.
  split.
  - destruct t1, t2, t3, t4. simpl in *. subst. reflexivity.
  - intros tasks v Hsort shown. subst shown.
    rewrite filteredAndSortedTasks_staged, Hsort. simpl comparator.
    split; [reflexivity |].
    rewrite staged_matches_view. split; [apply Array_sort_perm |]. split.
    + apply Array_sort_sorted.
      * unfold priority_ge. intros a b c Hab Hbc. lia.
      * intros a b. rewrite byPriority_verdict. unfold priority_ge. lia.
      * intros a b. rewrite byPriority_verdict. unfold priority_ge. lia.
    + intros p. apply Array_sort_stable.
      intros a b Ha Hb. rewrite byPriority_verdict.
      apply Z.eqb_eq in Ha, Hb. lia.
Qed.

Lemma view_filters_in_order_then_sorts_by_priority_witness :
  let tasks := TasksState.tasks (initialState SampleRuntime.Date_now) in
  let nobody := Task.mk "" "" "" InvalidDate false 0 [] InvalidDate None 0 in
  map Task.priority tasks = [4; 2; 3; 5] /\
  map Task.completed tasks = [false; false; true; false] /\
  @filteredAndSortedTasks SampleRuntime.runtime tasks
    (mkView StatusActive None None SortPriority "") =
  [nth 3 tasks nobody; nth 0 tasks nobody; nth 1 tasks nobody].
Proof.
  split; [reflexivity |]. split; [reflexivity |].
  unfold initialState. cbn [TasksState.tasks nth].
  refine (proj1 (@view_filters_in_order_then_sorts_by_priority
                   SampleRuntime.runtime _ _ _ _ _ _ _ _ _ _ _ _));
    reflexivity.
Defined.

Lemma filter_none {A : Type} (f : A -> bool) (l : list A) :
  (forall x, In x l -> f x = false) -> filter f l = [].
Proof.
  induction l as [| x rest IH]; intros Hno; simpl.
  - reflexivity.
  - rewrite (Hno x (or_introl eq_refl)). apply IH.
    intros y Hy. apply Hno. now right.
Qed.

(** C10. The handler of the priority selector turns the value ["0"] of the
    "All Priorities" option into the number 0, not into [null], because the
    string ["0"] is truthy. With that filter the priority stage keeps only
    tasks whose priority is exactly 0, so a state whose priorities all lie
    in 1..5 is displayed as the empty list, whatever the other view
    parameters are. *)
Theorem all_priorities_option_empties_the_view
        (rt : JsRuntime) (tasks : list Task.t) (v : ViewParams)
        (Hrange : forall task, In task tasks -> 1 <= Task.priority task <= 5)
        (Hselected : priorityFilter v = onPriorityChange "0") :
  JsString.truthy "0" = true /\
  onPriorityChange "0" = Some (Int 0) /\
  onPriorityChange "0" <> None /\
  filteredAndSortedTasks tasks v = [].
Proof.
  split; [reflexivity |]. split; [reflexivity |]. split; [discriminate |].
  rewrite filteredAndSortedTasks_staged, staged_matches_view.
  rewrite filter_none; [reflexivity |].
  intros task Htask. unfold matches_view. rewrite Hselected.
  assert (Hp : matches_priority (onPriorityChange "0") task = false).
  { change (onPriorityChange "0") with (Some (Int 0)). simpl.
    apply Z.eqb_neq. specialize (Hrange task Htask). lia. }
  rewrite Hp. now rewrite andb_false_r.
Qed.

Lemma all_priorities_option_empties_the_view_witness :
  let tasks := TasksState.tasks (initialState SampleRuntime.Date_now) in
  let v := mkView StatusAll (onPriorityChange "0") None SortDueDate "" in
  JsString.truthy "0" = true /\
  onPriorityChange "0" = Some (Int 0) /\
  onPriorityChange "0" <> None /\
  @filteredAndSortedTasks SampleRuntime.runtime tasks v = [].
Proof.
  apply all_priorities_option_empties_the_view.
  - intros task Htask. simpl in Htask.
    repeat (destruct Htask as [<- | Htask]; [simpl; lia |]).
    destruct Htask.
  - reflexivity.
Defined.

(** ** Reordering *)

Lemma map_index_ids (start : nat) (items : list Task.t) :
  map Task.id
      (map_index (fun item index => Task.with_position item (Z.of_nat index))
                 start items) =
  map Task.id items.
Proof.
  revert start. induction items as [| x rest IH]; intros start; simpl.
  - reflexivity.
  - now rewrite IH.
Qed.

Lemma splice_in_perm {A : Type} (i : nat) (x : A) (items : list A) :
  Permutation (splice_in i x items) (x :: items).
Proof.
  unfold splice_in. rewrite <- (firstn_skipn i items) at 3.
  symmetry. apply Permutation_middle.
Qed.

Lemma splice_out_perm {A : Type} (i : nat) (x : A) (items : list A) :
  nth_error items i = Some x ->
  Permutation (x :: splice_out i items) items.
Proof.
  revert i. induction items as [| y rest IH]; intros [| i] Hnth; simpl in *;
    try discriminate.
  - injection Hnth as ->. apply Permutation_refl.
  - unfold splice_out in *. simpl.
    eapply perm_trans; [apply perm_swap |]. apply perm_skip. now apply IH.
Qed.

(** Whatever the state holds, a drag that ends inside the list leaves in
    the state the displayed tasks and nothing else. *)
Lemma after_drag_keeps_only_displayed
      (state : TasksState.t) (displayed : list Task.t) (result : DropResult)
      (dest : nat) (item : Task.t) :
  destination result = Some dest ->
  nth_error displayed (source_index result) = Some item ->
  exists state',
    after_drag state displayed result = Some state' /\
    TasksState.tags state' = TasksState.tags state /\
    Permutation (map Task.id (TasksState.tasks state')) (map Task.id displayed).
Proof.
  intros Hdest Hsrc. unfold after_drag, handleDragEnd.
  rewrite Hdest, Hsrc. eexists. split; [reflexivity |]. simpl.
  split; [reflexivity |]. rewrite map_index_ids.
  apply Permutation_map.
  eapply perm_trans; [apply splice_in_perm |]. now apply splice_out_perm.
Qed.

(** C1, on the failing input. In the seed state viewed with the status
    filter "active", the completed task "3" is not displayed. Dragging the
    first displayed task onto the second position dispatches
    [REORDER_TASKS] with the three displayed tasks, and the reducer stores
    exactly these: task "3" is no longer in the state. *)
Theorem drag_under_filter_drops_hidden_task (rt : JsRuntime) :
  let state := initialState SampleRuntime.Date_now in
  let v := mkView StatusActive None None SortPriority "" in
  let displayed := filteredAndSortedTasks (TasksState.tasks state) v in
  (exists hidden,
      In hidden (TasksState.tasks state) /\ Task.id hidden = "3" /\
      ~ In hidden displayed) /\
  exists state',
    after_drag state displayed (mkDrop 0 (Some 1%nat)) = Some state' /\
    map Task.id (TasksState.tasks state') = ["1"; "4"; "2"] /\
    map Task.position (TasksState.tasks state') = [0; 1; 2] /\
    (forall task, In task (TasksState.tasks state') -> Task.id task <> "3").
Proof.
  cbv zeta. split.
  - eexists. split; [right; right; left; reflexivity |].
    split; [reflexivity |].
    intros Hin. simpl in Hin.
    repeat (destruct Hin as [Heq | Hin]; [discriminate Heq |]).
    exact Hin.
  - eexists. split; [reflexivity |]. split; [reflexivity |].
    split; [reflexivity |].
    intros task Hin. simpl in Hin.
    repeat (destruct Hin as [<- | Hin]; [simpl; discriminate |]).
    destruct Hin.
Qed.

(** ** Loading *)

(** The load effect never lets an exception out. *)
Lemma load_effect_returns (rt : JsRuntime) (slot : Storage) :
  exists outcome, load_effect slot = Normal outcome.
Proof.
  unfold load_effect.
  destruct (saved_is_truthy slot); [| eexists; reflexivity].
  destruct slot as [savedTasks |]; [| eexists; reflexivity].
  unfold try_catch, bind.
  destruct (parse_saved savedTasks); eexists; reflexivity.
Qed.

(** An absent item and the empty string are not read at all: nothing is
    dispatched and nothing is logged. *)
Lemma load_effect_skips_falsy (rt : JsRuntime) (slot : Storage) :
  saved_is_truthy slot = false ->
  load_effect slot = Normal (mkOutcome None []).
Proof. intros Hfalsy. unfold load_effect. now rewrite Hfalsy. Qed.

(** Stored values on which deserialization fails: a string that is not JSON,
    the JSON text [null], an object without [tasks], a [tasks] that is not
    an array, a task that is [null]. *)
Example deserialization_failures (rt : JsRuntime) :
  parse_saved (NotJSON false) = Throw SyntaxError /\
  parse_saved (JSONText VNull) = Throw TypeError /\
  parse_saved (JSONText (VObj [("tags", VArr [])])) = Throw TypeError /\
  parse_saved (JSONText (VObj [("tasks", VStr "none"); ("tags", VArr [])]))
    = Throw TypeError /\
  parse_saved (JSONText (VObj [("tasks", VArr [VNull]); ("tags", VArr [])]))
    = Throw TypeError.
Proof. repeat split. Qed.

(** C7. When the slot holds a value that the load effect deserializes and
    the deserialization throws, the effect returns normally: it dispatches
    nothing, writes the error to the console, and the state stays the seed
    data that the component started with. *)
Theorem failed_deserialization_is_caught_and_logged
        (rt : JsRuntime) (Date_now : nat -> Z)
        (slot : Storage) (savedTasks : stored_string) (error : js_error)
        (Hslot : slot = Some savedTasks)
        (Hread : saved_is_truthy slot = true)
        (Hfail : parse_saved savedTasks = Throw error) :
  exists outcome,
    load_effect slot = Normal outcome /\
    dispatched outcome = None /\
    console outcome = [mkEntry "Error parsing saved tasks:" error] /\
    store_after_load (initialState Date_now) outcome =
      WellTyped (initialState Date_now).
Proof.
  subst slot. unfold load_effect. rewrite Hread.
  unfold try_catch, bind. rewrite Hfail.
  eexists. repeat split.
Qed.

Lemma failed_deserialization_is_caught_and_logged_witness :
  exists outcome,
    @load_effect SampleRuntime.runtime (Some (NotJSON false)) = Normal outcome /\
    dispatched outcome = None /\
    console outcome = [mkEntry "Error parsing saved tasks:" SyntaxError] /\
    store_after_load (initialState SampleRuntime.Date_now) outcome =
      WellTyped (initialState SampleRuntime.Date_now).
Proof.
  apply (@failed_deserialization_is_caught_and_logged
           SampleRuntime.runtime SampleRuntime.Date_now
           (Some (NotJSON false)) (NotJSON false) SyntaxError);
    reflexivity.
Defined.

(** ** Saving, then loading *)

Lemma all_string_of (l : list string) :
  Typed.all Typed.string_of (map VStr l) = Some l.
Proof.
  induction l as [| s rest IH]; simpl.
  - reflexivity.
  - now rewrite IH.
Qed.

(** A typed task, seen as a value, reads back as itself. *)
Lemma Task_of_value (task : Task.t) :
  Typed.Task_of (value_of_Task task) = Some task.
Proof.
  destruct task as [id name description dueDate completed priority tags
                    createdAt completedAt position].
  unfold Typed.Task_of, value_of_Task, Typed.field. simpl.
  rewrite all_string_of. simpl.
  destruct completedAt; reflexivity.
Qed.

Lemma TaskTag_of_value (tag : TaskTag.t) :
  Typed.TaskTag_of (value_of_TaskTag tag) = Some tag.
Proof. destruct tag. reflexivity. Qed.

Lemma all_of_values {A : Type} (read : jsval -> option A) (show : A -> jsval)
      (l : list A) :
  (forall x, read (show x) = Some x) ->
  Typed.all read (map show l) = Some l.
Proof.
  intros Hread. induction l as [| x rest IH]; simpl.
  - reflexivity.
  - now rewrite Hread, IH.
Qed.

Lemma TasksState_of_value (state : TasksState.t) :
  Typed.TasksState_of (value_of_TasksState state) = Some state.
Proof.
  destruct state as [tasks tags].
  unfold Typed.TasksState_of, value_of_TasksState, Typed.field. simpl.
  rewrite (all_of_values Typed.Task_of value_of_Task tasks Task_of_value).
  simpl.
  rewrite (all_of_values Typed.TaskTag_of value_of_TaskTag tags
                         TaskTag_of_value).
  reflexivity.
Qed.

Section RoundTrip.
Context {rt : JsRuntime} {laws : DateStrings rt}.

Lemma json_image_strings (l : list string) :
  map (fun x => match x with
                | VUndefined => VNull
                | _ => json_image x
                end) (map VStr l) = map VStr l.
Proof.
  induction l as [| s rest IH]; simpl.
  - reflexivity.
  - now rewrite IH.
Qed.

Lemma json_image_TaskTag (tag : TaskTag.t) :
  json_image (value_of_TaskTag tag) = value_of_TaskTag tag.
Proof. reflexivity. Qed.

Lemma new_Date_of_toJSON (d : Date) :
  is_valid_date d ->
  truthy (Date_toJSON d) = true /\
  new_Date (Date_toJSON d) = Normal d.
Proof.
  destruct d as [t |]; simpl; [| contradiction].
  intros Hrange. split.
  - unfold JsString.truthy. apply negb_true_iff.
    apply String.eqb_neq. apply toISOString_nonempty.
  - now rewrite parse_toISOString.
Qed.

(** The stored form of a task whose timestamps are valid is rehydrated
    into the task. *)
Lemma rehydrate_task_of_image (task : Task.t) :
  task_dates_valid task ->
  rehydrate_task (json_image (value_of_Task task)) =
  Normal (value_of_Task task).
Proof.
  destruct task as [id name description dueDate completed priority tags
                    createdAt completedAt position].
  unfold task_dates_valid. simpl. intros (Hdue & Hcreated & Hcompleted).
  destruct (new_Date_of_toJSON dueDate Hdue) as [_ Hd].
  destruct (new_Date_of_toJSON createdAt Hcreated) as [_ Hc].
  unfold rehydrate_task, value_of_Task. simpl.
  rewrite json_image_strings.
  destruct completedAt as [done |]; simpl.
  - destruct (new_Date_of_toJSON done Hcompleted) as [Ht Hn].
    unfold bind. simpl. rewrite Hd, Hc, Ht, Hn. reflexivity.
  - unfold bind. simpl. rewrite Hd, Hc. reflexivity.
Qed.

Lemma rehydrate_tasks_of_image (tasks : list Task.t) :
  Forall task_dates_valid tasks ->
  Array_map rehydrate_task
    (map (fun x => match x with
                   | VUndefined => VNull
                   | _ => json_image x
                   end) (map value_of_Task tasks)) =
  Normal (map value_of_Task tasks).
Proof.
  induction 1 as [| task rest Hvalid _ IH]; cbn [map Array_map].
  - reflexivity.
  - change (match value_of_Task task with
            | VUndefined => VNull
            | _ => json_image (value_of_Task task)
            end) with (json_image (value_of_Task task)).
    rewrite (rehydrate_task_of_image task Hvalid).
    cbn [bind]. rewrite IH. reflexivity.
Qed.

Lemma json_image_tags (tags : list TaskTag.t) :
  map (fun x => match x with
                | VUndefined => VNull
                | _ => json_image x
                end) (map value_of_TaskTag tags) = map value_of_TaskTag tags.
Proof.
  induction tags as [| tag rest IH]; simpl map.
  - reflexivity.
  - rewrite IH. reflexivity.
Qed.

(** What [save_effect] stores parses back to the value of the state. *)
Lemma parse_saved_of_image (state : TasksState.t) :
  state_dates_valid state ->
  parse_saved (JSON_stringify (value_of_TasksState state)) =
  Normal (value_of_TasksState state).
Proof.
  destruct state as [tasks tags]. unfold state_dates_valid. simpl.
  intros Hvalid.
  unfold parse_saved, JSON_stringify, value_of_TasksState.
  cbn [TasksState.tasks TasksState.tags json_image JSON_parse bind get
       own_property str_eq String.eqb Ascii.eqb Bool.eqb].
  rewrite (rehydrate_tasks_of_image tasks Hvalid), json_image_tags.
  reflexivity.
Qed.

Lemma load_saved_valid (state0 state : TasksState.t) :
  state_dates_valid state ->
  load_saved state0 state = Normal (WellTyped state).
Proof.
  intros Hvalid. unfold load_saved, save_effect, load_effect.
  cbn [saved_is_truthy JSON_stringify].
  fold (JSON_stringify (value_of_TasksState state)).
  rewrite (parse_saved_of_image state Hvalid).
  cbn [bind try_catch]. unfold store_after_load. cbn [dispatched].
  rewrite TasksState_of_value. reflexivity.
Qed.
End RoundTrip.

(** The sample runtime honours the contract on date strings. *)
Lemma SampleRuntime_DateStrings : DateStrings SampleRuntime.runtime.
Proof.
  split.
  - intros t Hrange. simpl. unfold SampleRuntime.read_time, SampleRuntime.print_time.
    rewrite NilEmpty.isi, DecimalZ.of_to. unfold TimeClip.
    apply Z.leb_le in Hrange. now rewrite Hrange.
  - intros t. simpl. unfold SampleRuntime.print_time. discriminate.
Qed.

(** C6, as amended. Let every [dueDate], [createdAt] and present
    [completedAt] of the state be a valid date, and let at least one task
    have a [completedAt]. Saving the state and loading what was saved
    dispatches [REPLACE_ALL] with the value of the state itself, whose
    timestamp fields are [Date] objects and not strings, and the store then
    holds the original state. *)
Theorem load_after_save_restores_state
        (rt : JsRuntime) (laws : DateStrings rt)
        (state0 state : TasksState.t)
        (Hvalid : state_dates_valid state)
        (Hcompleted : Exists (fun task => Task.completedAt task <> None)
                             (TasksState.tasks state)) :
  load_effect (save_effect state) =
    Normal (mkOutcome (Some (value_of_TasksState state)) []) /\
  Typed.TasksState_of (value_of_TasksState state) = Some state /\
  load_saved state0 state = Normal (WellTyped state).
Proof.
  split; [| split].
  - unfold save_effect, load_effect. cbn [saved_is_truthy JSON_stringify].
    fold (JSON_stringify (value_of_TasksState state)).
    now rewrite (parse_saved_of_image state Hvalid).
  - apply TasksState_of_value.
  - now apply load_saved_valid.
Qed.

Lemma load_after_save_restores_state_witness :
  let state := initialState SampleRuntime.Date_now in
  @load_effect SampleRuntime.runtime (@save_effect SampleRuntime.runtime state) =
    Normal (mkOutcome (Some (value_of_TasksState state)) []) /\
  Typed.TasksState_of (value_of_TasksState state) = Some state /\
  @load_saved SampleRuntime.runtime (TasksState.mk [] []) state =
    Normal (WellTyped state).
Proof.
  apply (@load_after_save_restores_state
           SampleRuntime.runtime SampleRuntime_DateStrings).
  - unfold state_dates_valid, initialState. cbn [TasksState.tasks].
    repeat constructor; cbn [Task.dueDate Task.createdAt Task.completedAt];
      vm_compute; discriminate.
  - right. right. left. discriminate.
Defined.

(** C6, counterexample. A task whose [dueDate] is an Invalid Date is saved
    with [dueDate: null], because [toJSON] returns [null] for a date that is
    not finite, and [new Date(null)] is the epoch: the state that is loaded
    differs from the state that was saved, although one of its tasks has a
    [completedAt]. *)
Lemma load_after_save_invalid_date_counterexample :
  let task := Task.mk "1" "Pay rent" "" InvalidDate true 3 []
                      (ValidDate 0) (Some (ValidDate 5)) 0 in
  let state := TasksState.mk [task] [] in
  Exists (fun task => Task.completedAt task <> None) (TasksState.tasks state) /\
  @load_saved SampleRuntime.runtime (TasksState.mk [] []) state =
    Normal (WellTyped
              (TasksState.mk
                 [Task.mk "1" "Pay rent" "" (ValidDate 0) true 3 []
                          (ValidDate 0) (Some (ValidDate 5)) 0] [])) /\
  @load_saved SampleRuntime.runtime (TasksState.mk [] []) state <>
    Normal (WellTyped state).
Proof.
  cbv zeta. split; [left; discriminate |].
  split; [vm_compute; reflexivity | vm_compute; discriminate].
Qed.

(* ===================================================================== *)
(** * Further properties of the reducer                                    *)
(* ===================================================================== *)

Lemma filter_id_when_all {A : Type} (f : A -> bool) (l : list A) :
  (forall x, In x l -> f x = true) -> filter f l = l.
Proof.
  induction l as [| x rest IH]; intros Hall; simpl.
  - reflexivity.
  - rewrite (Hall x (or_introl eq_refl)). f_equal.
    apply IH. intros y Hy. apply Hall. now right.
Qed.

Lemma filter_swap {A : Type} (f g : A -> bool) (l : list A) :
  filter f (filter g l) = filter g (filter f l).
Proof.
  rewrite !filter_filter. apply filter_ext. intros x. apply andb_comm.
Qed.

Lemma filter_twice {A : Type} (f : A -> bool) (l : list A) :
  filter f (filter f l) = filter f l.
Proof.
  rewrite filter_filter. apply filter_ext. intros x. now destruct (f x).
Qed.

(** X1. [DELETE_TASK id] leaves the tags alone and keeps exactly the tasks
    whose id is not [id]; when no task has that id the state comes back
    unchanged. *)
Theorem delete_task_removes_the_id (state : TasksState.t) (id : string) :
  let state' := tasksReducer state (DELETE_TASK id) in
  TasksState.tags state' = TasksState.tags state /\
  (forall task, In task (TasksState.tasks state') <->
                In task (TasksState.tasks state) /\ Task.id task <> id) /\
  ((forall task, In task (TasksState.tasks state) -> Task.id task <> id) ->
   state' = state).
Proof.
  destruct state as [tasks tags]. simpl. split; [reflexivity |]. split.
  - intros task. rewrite filter_In, str_neq_true. reflexivity.
  - intros Habsent. f_equal. apply filter_id_when_all.
    intros task Htask. apply str_neq_true. now apply Habsent.
Qed.

Lemma filter_app_one_out {A : Type} (f : A -> bool) (l : list A) (x : A) :
  f x = false -> (forall y, In y l -> f y = true) ->
  filter f (l ++ [x]) = l.
Proof.
  intros Hx Hl. rewrite filter_app. simpl. rewrite Hx, app_nil_r.
  now apply filter_id_when_all.
Qed.

(** X2. Adding a task under an id that no task has and deleting that id
    gives the original state back. *)
Theorem add_then_delete_restores
        (state : TasksState.t) (task : Task.t)
        (Hfresh : forall t, In t (TasksState.tasks state) ->
                            Task.id t <> Task.id task) :
  tasksReducer (tasksReducer state (ADD_TASK task))
               (DELETE_TASK (Task.id task)) = state.
Proof.
  destruct state as [tasks tags]. simpl in *. f_equal.
  apply filter_app_one_out.
  - unfold str_neq. now rewrite String.eqb_refl.
  - intros t Ht. apply str_neq_true. now apply Hfresh.
Qed.

Lemma add_then_delete_restores_witness :
  let state := initialState SampleRuntime.Date_now in
  let task := Task.mk "1762128000000" "Water the plants" "" (ValidDate 0)
                      false 3 [] (ValidDate 0) None 4 in
  tasksReducer (tasksReducer state (ADD_TASK task))
               (DELETE_TASK (Task.id task)) = state.
Proof.
  apply add_then_delete_restores.
  intros t Ht. simpl in Ht.
  repeat (destruct Ht as [<- | Ht]; [simpl; discriminate |]).
  destruct Ht.
Defined.

Lemma map_id_if (hit : Task.t -> bool) (new : Task.t -> Task.t)
      (tasks : list Task.t) :
  (forall task, hit task = true -> Task.id (new task) = Task.id task) ->
  map Task.id (map (fun task => if hit task then new task else task) tasks) =
  map Task.id tasks.
Proof.
  intros Hid. induction tasks as [| task rest IH]; simpl.
  - reflexivity.
  - rewrite IH. f_equal. destruct (hit task) eqn:Hhit; [now apply Hid | reflexivity].
Qed.

(** X3. [TOGGLE_TASK], [EDIT_TASK], [ADD_TAG], [EDIT_TAG] and [DELETE_TAG]
    leave the sequence of task ids as it is: no task appears, disappears,
    moves or changes its id. *)
Theorem task_ids_are_stable (state : TasksState.t) (action : TaskAction)
        (Hkind : keeps_the_task_list action = true) :
  map Task.id (TasksState.tasks (tasksReducer state action)) =
  map Task.id (TasksState.tasks state).
Proof.
  destruct action as [p | id date | id | p | s | l | g | g | id];
    try discriminate Hkind; simpl.
  - apply (map_id_if (fun task => str_eq (Task.id task) id)
                     (fun task => Task.with_completion task
                        (negb (Task.completed task))
                        (if negb (Task.completed task) then Some date else None))).
    reflexivity.
  - apply (map_id_if (fun task => str_eq (Task.id task) (Task.id p))
                     (fun _ => p)).
    intros task Hhit. symmetry. now apply str_eq_true.
  - reflexivity.
  - reflexivity.
  - rewrite map_map. reflexivity.
Qed.

Lemma task_ids_are_stable_witness :
  map Task.id
      (TasksState.tasks
         (tasksReducer (initialState SampleRuntime.Date_now) (DELETE_TAG "1"))) =
  map Task.id (TasksState.tasks (initialState SampleRuntime.Date_now)).
Proof.
  apply task_ids_are_stable. reflexivity.
Defined.

Lemma NoDup_map_filter {A B : Type} (key : A -> B) (f : A -> bool) (l : list A) :
  NoDup (map key l) -> NoDup (map key (filter f l)).
Proof.
  induction l as [| x rest IH]; simpl; intros Hnd.
  - constructor.
  - inversion Hnd as [| k ks Hnotin Hrest]; subst.
    destruct (f x); simpl.
    + constructor; [| now apply IH].
      intros Hin. apply Hnotin.
      apply in_map_iff in Hin as [y [Hy Hin]].
      apply filter_In in Hin as [Hin _].
      apply in_map_iff. now exists y.
    + now apply IH.
Qed.

(** X4. Task ids stay pairwise distinct under every intent, provided an
    added task comes with an id that no task has and a replacing or
    reordering payload has distinct ids itself. *)
Theorem reducer_keeps_ids_unique (state : TasksState.t) (action : TaskAction)
        (Hunique : ids_unique state)
        (Hbrings : brings_unique_ids state action) :
  ids_unique (tasksReducer state action).
Proof.
  unfold ids_unique in *.
  destruct action as [p | id date | id | p | s | l | g | g | id]; simpl in *.
  - rewrite map_app. simpl. apply NoDup_app.
    + exact Hunique.
    + constructor; [intros [] | constructor].
    + intros x Hx [<- | []]. now apply Hbrings.
  - rewrite (map_id_if (fun task => str_eq (Task.id task) id)
               (fun task => Task.with_completion task
                  (negb (Task.completed task))
                  (if negb (Task.completed task) then Some date else None)));
      [exact Hunique | reflexivity].
  - now apply NoDup_map_filter.
  - rewrite (map_id_if (fun task => str_eq (Task.id task) (Task.id p))
               (fun _ => p)); [exact Hunique |].
    intros task Hhit. symmetry. now apply str_eq_true.
  - exact Hbrings.
  - exact Hbrings.
  - exact Hunique.
  - exact Hunique.
  - rewrite map_map. exact Hunique.
Qed.

Lemma reducer_keeps_ids_unique_witness :
  ids_unique
    (tasksReducer (initialState SampleRuntime.Date_now)
       (ADD_TASK (Task.mk "5" "Water the plants" "" (ValidDate 0)
                          false 3 [] (ValidDate 0) None 4))).
Proof.
  apply reducer_keeps_ids_unique.
  - unfold ids_unique. simpl.
    repeat (constructor; [simpl; intuition discriminate |]). constructor.
  - simpl. intuition discriminate.
Defined.

(** X5. No task ever lists the id of a tag that does not exist, as long as
    the tasks that an intent brings list existing tags only: every intent
    preserves this, and [DELETE_TAG] does so by itself, because it strips
    the id from the tasks while it removes the tag. *)
Theorem reducer_keeps_tags_existing (state : TasksState.t) (action : TaskAction)
        (Hstate : no_dangling_tag state)
        (Hbrings : brings_existing_tags state action) :
  no_dangling_tag (tasksReducer state action).
Proof.
  unfold no_dangling_tag, tags_exist in *.
  destruct state as [tasks tags].
  destruct action as [p | id date | id | p | s | l | g | g | id]; simpl in *.
  - intros task tagId Htask Htag.
    apply in_app_or in Htask as [Htask | [<- | []]].
    + now apply (Hstate task).
    + apply (Hbrings p); [now left | exact Htag].
  - intros task tagId Htask Htag.
    apply in_map_iff in Htask as [old [<- Hold]].
    apply (Hstate old); [exact Hold |].
    now destruct (str_eq (Task.id old) id).
  - intros task tagId Htask Htag.
    apply filter_In in Htask as [Htask _]. now apply (Hstate task).
  - intros task tagId Htask Htag.
    apply in_map_iff in Htask as [old [<- Hold]].
    destruct (str_eq (Task.id old) (Task.id p)).
    + apply (Hbrings p); [now left | exact Htag].
    + now apply (Hstate old).
  - exact Hbrings.
  - exact Hbrings.
  - intros task tagId Htask Htag.
    destruct (Hstate task tagId Htask Htag) as [tag [Hin Hid]].
    exists tag. split; [apply in_or_app; now left | exact Hid].
  - intros task tagId Htask Htag.
    destruct (Hstate task tagId Htask Htag) as [tag [Hin Hid]].
    destruct (str_eq (TaskTag.id tag) (TaskTag.id g)) eqn:Hhit.
    + exists g. split.
      * apply in_map_iff. exists tag. now rewrite Hhit.
      * apply str_eq_true in Hhit. congruence.
    + exists tag. split; [| exact Hid].
      apply in_map_iff. exists tag. now rewrite Hhit.
  - intros task tagId Htask Htag.
    apply in_map_iff in Htask as [old [<- Hold]]. simpl in Htag.
    apply filter_In in Htag as [Htag Hne].
    destruct (Hstate old tagId Hold Htag) as [tag [Hin Hid]].
    exists tag. split; [| exact Hid].
    apply filter_In. split; [exact Hin |]. now rewrite Hid.
Qed.

Lemma initialState_no_dangling_tag (Date_now : nat -> Z) :
  no_dangling_tag (initialState Date_now).
Proof.
  unfold no_dangling_tag, tags_exist. simpl.
  intros task tagId Htask Htag.
  destruct Htask as [<- | [<- | [<- | [<- | []]]]]; simpl in Htag;
    repeat (destruct Htag as [<- | Htag];
            [first [ exists (TaskTag.mk "1" "Work" "#3b82f6");
                     split; [tauto | reflexivity]
                   | exists (TaskTag.mk "2" "Learning" "#10b981");
                     split; [tauto | reflexivity]
                   | exists (TaskTag.mk "3" "Personal" "#8b5cf6");
                     split; [tauto | reflexivity] ] |]);
    destruct Htag.
Qed.

Lemma reducer_keeps_tags_existing_witness :
  no_dangling_tag
    (tasksReducer (initialState SampleRuntime.Date_now) (DELETE_TAG "1")).
Proof.
  apply reducer_keeps_tags_existing.
  - apply initialState_no_dangling_tag.
  - exact I.
Defined.

(** X6. Deletions commute and repeat harmlessly: two [DELETE_TAG], two
    [DELETE_TASK], or one of each, reach the same state in either order,
    and deleting the same id twice is deleting it once. *)
Theorem deletions_commute (state : TasksState.t) (a b : string) :
  tasksReducer (tasksReducer state (DELETE_TAG a)) (DELETE_TAG b) =
  tasksReducer (tasksReducer state (DELETE_TAG b)) (DELETE_TAG a) /\
  tasksReducer (tasksReducer state (DELETE_TASK a)) (DELETE_TASK b) =
  tasksReducer (tasksReducer state (DELETE_TASK b)) (DELETE_TASK a) /\
  tasksReducer (tasksReducer state (DELETE_TASK a)) (DELETE_TAG b) =
  tasksReducer (tasksReducer state (DELETE_TAG b)) (DELETE_TASK a) /\
  tasksReducer (tasksReducer state (DELETE_TAG a)) (DELETE_TAG a) =
  tasksReducer state (DELETE_TAG a) /\
  tasksReducer (tasksReducer state (DELETE_TASK a)) (DELETE_TASK a) =
  tasksReducer state (DELETE_TASK a).
Proof.
  destruct state as [tasks tags]. simpl. repeat split; f_equal.
  - rewrite !map_map. apply map_ext. intros task.
    unfold Task.with_tags. simpl. f_equal. apply filter_swap.
  - apply filter_swap.
  - apply filter_swap.
  - induction tasks as [| task rest IH]; simpl; [reflexivity |].
    destruct (str_neq (Task.id task) a); simpl; now rewrite IH.
  - rewrite map_map. apply map_ext. intros task.
    unfold Task.with_tags. simpl. f_equal. apply filter_twice.
  - apply filter_twice.
  - apply filter_twice.
Qed.

(** X7. [TOGGLE_TASK id] touches nothing but the tasks whose id is [id]:
    the tags and the number of tasks stay, every task with another id stays
    where it is, unchanged, and when no task has the id the state comes
    back as it was. *)
Theorem toggle_task_touches_only_the_id
        (state : TasksState.t) (id : string) (date : Date) :
  let state' := tasksReducer state (TOGGLE_TASK id date) in
  TasksState.tags state' = TasksState.tags state /\
  List.length (TasksState.tasks state') = List.length (TasksState.tasks state) /\
  (forall i task,
      nth_error (TasksState.tasks state) i = Some task ->
      Task.id task <> id ->
      nth_error (TasksState.tasks state') i = Some task) /\
  ((forall task, In task (TasksState.tasks state) -> Task.id task <> id) ->
   state' = state).
Proof.
  cbv zeta. split; [reflexivity |]. split; [simpl; apply length_map |]. split.
  - intros i task Hnth Hne.
    rewrite (toggle_nth state id date i task Hnth).
    apply str_eq_false in Hne. now rewrite Hne.
  - intros Habsent. destruct state as [tasks tags]. simpl in *. f_equal.
    apply (map_replace_none (fun task => str_eq (Task.id task) id)
             (fun task => Task.with_completion task (negb (Task.completed task))
                            (if negb (Task.completed task)
                             then Some date else None))).
    intros task Htask. apply str_eq_false. now apply Habsent.
Qed.

(** X8. [EDIT_TASK] is the last word on a task: whatever an earlier
    [TOGGLE_TASK] or [EDIT_TASK] of the same id did is overwritten by the
    payload. The edit dialog keeps a copy of the task and dispatches that
    copy, so saving an edit drops a completion toggled in between. *)
Theorem edit_task_overrides_earlier_changes
        (state : TasksState.t) (payload earlier : Task.t) (date : Date)
        (Hsame : Task.id earlier = Task.id payload) :
  tasksReducer (tasksReducer state (TOGGLE_TASK (Task.id payload) date))
               (EDIT_TASK payload) =
  tasksReducer state (EDIT_TASK payload) /\
  tasksReducer (tasksReducer state (EDIT_TASK earlier)) (EDIT_TASK payload) =
  tasksReducer state (EDIT_TASK payload).
Proof.
  destruct state as [tasks tags]. simpl. split; f_equal.
  - rewrite map_map. apply map_ext. intros task.
    destruct (str_eq (Task.id task) (Task.id payload)) eqn:Hhit; simpl.
    + now rewrite Hhit.
    + now rewrite Hhit.
  - rewrite map_map. apply map_ext. intros task. rewrite Hsame.
    destruct (str_eq (Task.id task) (Task.id payload)) eqn:Hhit.
    + rewrite Hsame. unfold str_eq. now rewrite String.eqb_refl.
    + now rewrite Hhit.
Qed.

Lemma edit_task_overrides_earlier_changes_witness :
  let state := initialState SampleRuntime.Date_now in
  let copy := Task.mk "1" "Complete React Project" "Renamed in the dialog"
                      (ValidDate 0) false 4 ["1"] (ValidDate 0) None 0 in
  tasksReducer (tasksReducer state (TOGGLE_TASK "1" (ValidDate 5)))
               (EDIT_TASK copy) =
  tasksReducer state (EDIT_TASK copy) /\
  tasksReducer (tasksReducer state (EDIT_TASK copy)) (EDIT_TASK copy) =
  tasksReducer state (EDIT_TASK copy).
Proof.
  apply (@edit_task_overrides_earlier_changes
           (initialState SampleRuntime.Date_now)
           (Task.mk "1" "Complete React Project" "Renamed in the dialog"
                    (ValidDate 0) false 4 ["1"] (ValidDate 0) None 0)).
  reflexivity.
Defined.

(* ===================================================================== *)
(** * The tag badge                                                        *)
(* ===================================================================== *)

Lemma find_filter_out {A : Type} (key : A -> string) (id : string) (l : list A) :
  find (fun x => str_eq (key x) id)
       (filter (fun x => str_neq (key x) id) l) = None.
Proof.
  induction l as [| x rest IH]; simpl; [reflexivity |].
  unfold str_neq, str_eq in *.
  destruct (String.eqb (key x) id) eqn:Hx; simpl; [exact IH |].
  now rewrite Hx.
Qed.

Lemma find_filter_other {A : Type} (key : A -> string) (id other : string)
      (l : list A) :
  other <> id ->
  find (fun x => str_eq (key x) other)
       (filter (fun x => str_neq (key x) id) l) =
  find (fun x => str_eq (key x) other) l.
Proof.
  intros Hne. induction l as [| x rest IH]; simpl; [reflexivity |].
  unfold str_neq, str_eq in *.
  destruct (String.eqb (key x) id) eqn:Hx; simpl.
  - apply String.eqb_eq in Hx.
    destruct (String.eqb (key x) other) eqn:Ho; [| exact IH].
    apply String.eqb_eq in Ho. congruence.
  - now destruct (String.eqb (key x) other).
Qed.

(** X9. After [DELETE_TAG id] the badge of [id] finds no tag and renders
    nothing, while the badge of any other id finds what it found before. *)
Theorem badge_after_delete_tag (state : TasksState.t) (id other : string) :
  let state' := tasksReducer state (DELETE_TAG id) in
  TagBadge_tag state' id = None /\
  (other <> id -> TagBadge_tag state' other = TagBadge_tag state other).
Proof.
  unfold TagBadge_tag. simpl. split.
  - apply (find_filter_out TaskTag.id).
  - intros Hne. now apply (find_filter_other TaskTag.id).
Qed.

(** X10. A tag added under an id that no tag has is what the badge of that
    id then shows; a tag added under an id that is in use is shadowed by
    the older tag. [EDIT_TAG] of an id that is in use makes the badge of
    that id show the payload. *)
Theorem badge_after_add_and_edit_tag (state : TasksState.t) (tag : TaskTag.t) :
  (TagBadge_tag state (TaskTag.id tag) = None ->
   TagBadge_tag (tasksReducer state (ADD_TAG tag)) (TaskTag.id tag) = Some tag) /\
  (forall older, TagBadge_tag state (TaskTag.id tag) = Some older ->
   TagBadge_tag (tasksReducer state (ADD_TAG tag)) (TaskTag.id tag) = Some older /\
   TagBadge_tag (tasksReducer state (EDIT_TAG tag)) (TaskTag.id tag) = Some tag).
Proof.
  unfold TagBadge_tag. destruct state as [tasks tags]. simpl. split.
  - intros Hnone. induction tags as [| g rest IH]; simpl in *.
    + unfold str_eq. now rewrite String.eqb_refl.
    + destruct (str_eq (TaskTag.id g) (TaskTag.id tag)); [discriminate |].
      now apply IH.
  - intros older Hsome. split.
    + induction tags as [| g rest IH]; simpl in *; [discriminate |].
      destruct (str_eq (TaskTag.id g) (TaskTag.id tag)); [exact Hsome |].
      now apply IH.
    + induction tags as [| g rest IH]; simpl in *; [discriminate |].
      destruct (str_eq (TaskTag.id g) (TaskTag.id tag)) eqn:Hhit.
      * unfold str_eq. now rewrite String.eqb_refl.
      * rewrite Hhit. now apply IH.
Qed.

(* ===================================================================== *)
(** * Further properties of the derived view                               *)
(* ===================================================================== *)

Section ViewPermutation.
Context {rt : JsRuntime}.

Lemma view_perm (tasks : list Task.t) (v : ViewParams) :
  Permutation (filteredAndSortedTasks tasks v) (filter (matches_view v) tasks).
Proof.
  rewrite filteredAndSortedTasks_staged, staged_matches_view.
  apply Array_sort_perm.
Qed.

Lemma view_In (tasks : list Task.t) (v : ViewParams) (task : Task.t) :
  In task (filteredAndSortedTasks tasks v) <->
  In task tasks /\ matches_view v task = true.
Proof.
  rewrite <- filter_In. split; apply Permutation_in.
  - apply view_perm.
  - symmetry. apply view_perm.
Qed.
End ViewPermutation.

(** X11. Whatever the filters and the sort key, the view is a rearrangement
    of the tasks that pass the four filters: it shows each of them as often
    as the state holds it, shows no other task, and is never longer than
    the task list. *)
Theorem view_shows_exactly_the_matching_tasks
        (rt : JsRuntime) (tasks : list Task.t) (v : ViewParams) :
  let shown := filteredAndSortedTasks tasks v in
  Permutation shown (filter (matches_view v) tasks) /\
  (forall task, In task shown <-> In task tasks /\ matches_view v task = true) /\
  (List.length shown <= List.length tasks)%nat.
Proof.
  cbv zeta. split; [apply view_perm |]. split; [apply view_In |].
  rewrite (Permutation_length (view_perm tasks v)). apply filter_length_le.
Qed.

Section ArraySortOn.
Context {A : Type}.
Variable cmp : A -> A -> number.
Variable P : A -> Prop.
Variable ge : A -> A -> Prop.
Hypothesis ge_trans :
  forall a b c, P a -> P b -> P c -> ge a b -> ge b c -> ge a c.
Hypothesis verdict_ge : forall a b, P a -> P b -> verdict cmp a b <= 0 -> ge a b.
Hypothesis verdict_lt : forall a b, P a -> P b -> 0 < verdict cmp a b -> ge b a.
Hypothesis ge_verdict : forall a b, P a -> P b -> ge a b -> verdict cmp a b <= 0.

Lemma sort_insert_Forall (x : A) (l : list A) :
  P x -> Forall P l -> Forall P (sort_insert cmp x l).
Proof.
  intros Hx Hl. apply Forall_forall. intros y Hy.
  apply (Permutation_in _ (sort_insert_perm cmp x l)) in Hy.
  destruct Hy as [<- | Hy]; [exact Hx |].
  rewrite Forall_forall in Hl. now apply Hl.
Qed.

Lemma Array_sort_Forall (l : list A) :
  Forall P l -> Forall P (Array_sort cmp l).
Proof.
  intros Hl. apply Forall_forall. intros y Hy.
  apply (Permutation_in _ (Array_sort_perm cmp l)) in Hy.
  rewrite Forall_forall in Hl. now apply Hl.
Qed.

Lemma sort_insert_sorted_on (x : A) (l : list A) :
  P x -> Forall P l ->
  StronglySorted ge l -> StronglySorted ge (sort_insert cmp x l).
Proof.
  intros Hx Hl Hsorted. induction Hsorted as [| y rest Hsorted IH Hall]; simpl.
  - repeat constructor.
  - inversion Hl as [| y' rest' Hy Hrest]; subst.
    destruct (verdict cmp x y <=? 0) eqn:Hv.
    + apply Z.leb_le in Hv. constructor.
      * now constructor.
      * constructor; [now apply verdict_ge |].
        rewrite Forall_forall in *. intros z Hz.
        apply (ge_trans x y z); auto.
    + apply Z.leb_gt in Hv. constructor; [now apply IH |].
      apply Forall_forall. intros z Hz.
      apply (Permutation_in _ (sort_insert_perm cmp x rest)) in Hz.
      destruct Hz as [<- | Hz]; [now apply verdict_lt |].
      rewrite Forall_forall in Hall. now apply Hall.
Qed.

Lemma Array_sort_sorted_on (l : list A) :
  Forall P l -> StronglySorted ge (Array_sort cmp l).
Proof.
  induction 1 as [| x rest Hx Hrest IH]; simpl.
  - constructor.
  - apply sort_insert_sorted_on; auto. now apply Array_sort_Forall.
Qed.

(** Sorting a sorted list changes nothing. *)
Lemma Array_sort_of_sorted (l : list A) :
  Forall P l -> StronglySorted ge l -> Array_sort cmp l = l.
Proof.
  intros Hl Hsorted. induction Hsorted as [| x rest Hsorted IH Hall]; simpl.
  - reflexivity.
  - inversion Hl as [| x' rest' Hx Hrest]; subst.
    rewrite (IH Hrest). destruct rest as [| y r]; simpl; [reflexivity |].
    inversion Hall as [| y' r' Hxy _]; subst.
    inversion Hrest as [| y' r' Hy _]; subst.
    pose proof (ge_verdict x y Hx Hy Hxy) as Hv.
    apply Z.leb_le in Hv. now rewrite Hv.
Qed.
End ArraySortOn.

Lemma has_time_valid (d : Date) : has_time d -> exists t, d = ValidDate t.
Proof.
  destruct d as [t |]; intros H; [now exists t | now contradiction H].
Qed.

Section ViewOrder.
Context {rt : JsRuntime}.

Lemma key_orders_comparable (k : SortKey) (tasks : list Task.t) :
  key_orders k tasks -> Forall (comparable k) tasks.
Proof.
  intros H. apply Forall_forall. intros task Htask.
  destruct k; simpl in *; auto.
Qed.

Ltac dates a b :=
  unfold comparable, has_time, order_of, dueDate_ascending,
    createdAt_descending, Date_le, priority_ge, verdict, comparator,
    byDueDate, byCreatedAt, byPriority, num_sub in *;
  repeat match goal with
         | t : Task.t |- _ => destruct t
         end;
  simpl in *;
  repeat match goal with
         | d : Date |- _ => destruct d
         end;
  simpl in *; try contradiction; try congruence; try lia.

Lemma order_trans (k : SortKey) (a b c : Task.t) :
  k <> SortName -> comparable k a -> comparable k b -> comparable k c ->
  order_of k a b -> order_of k b c -> order_of k a c.
Proof. destruct k; intros Hk; try congruence; dates a b. Qed.

Lemma order_verdict_ge (k : SortKey) (a b : Task.t) :
  k <> SortName -> comparable k a -> comparable k b ->
  verdict (comparator k) a b <= 0 -> order_of k a b.
Proof. destruct k; intros Hk; try congruence; dates a b. Qed.

Lemma order_verdict_lt (k : SortKey) (a b : Task.t) :
  k <> SortName -> comparable k a -> comparable k b ->
  0 < verdict (comparator k) a b -> order_of k b a.
Proof. destruct k; intros Hk; try congruence; dates a b. Qed.

Lemma order_ge_verdict (k : SortKey) (a b : Task.t) :
  k <> SortName -> comparable k a -> comparable k b ->
  order_of k a b -> verdict (comparator k) a b <= 0.
Proof. destruct k; intros Hk; try congruence; dates a b. Qed.

Lemma key_orders_not_name (k : SortKey) (tasks : list Task.t) :
  key_orders k tasks -> k <> SortName.
Proof. destruct k; simpl; intros H; congruence || contradiction. Qed.

Lemma key_orders_filter (k : SortKey) (f : Task.t -> bool) (tasks : list Task.t) :
  key_orders k tasks -> key_orders k (filter f tasks).
Proof.
  destruct k; simpl; auto; intros H task Htask;
    apply filter_In in Htask as [Htask _]; now apply H.
Qed.

Lemma view_sorted (tasks : list Task.t) (v : ViewParams) :
  key_orders (sortBy v) tasks ->
  StronglySorted (order_of (sortBy v)) (filteredAndSortedTasks tasks v).
Proof.
  intros Hkey. pose proof (key_orders_not_name _ _ Hkey) as Hname.
  rewrite filteredAndSortedTasks_staged, staged_matches_view.
  apply (Array_sort_sorted_on (comparator (sortBy v)) (comparable (sortBy v))).
  - intros a b c. now apply order_trans.
  - intros a b. now apply order_verdict_ge.
  - intros a b. now apply order_verdict_lt.
  - apply key_orders_comparable. now apply key_orders_filter.
Qed.
End ViewOrder.

(** X12. Sorted by due date the view runs from the earliest to the latest
    due date, and sorted by creation date from the newest to the oldest
    task, when the dates of the tasks are valid; sorted by priority it runs
    from the highest to the lowest priority. *)
Theorem view_is_sorted_by_its_key
        (rt : JsRuntime) (tasks : list Task.t) (v : ViewParams)
        (Hkey : key_orders (sortBy v) tasks) :
  match sortBy v with
  | SortDueDate =>
      StronglySorted dueDate_ascending (filteredAndSortedTasks tasks v)
  | SortCreatedAt =>
      StronglySorted createdAt_descending (filteredAndSortedTasks tasks v)
  | SortPriority =>
      StronglySorted priority_ge (filteredAndSortedTasks tasks v)
  | SortName => True
  end.
Proof.
  pose proof (view_sorted tasks v Hkey) as Hsorted.
  destruct (sortBy v); simpl in *; auto.
Qed.

Lemma initialState_has_times :
  forall task,
    In task (TasksState.tasks (initialState SampleRuntime.Date_now)) ->
    has_time (Task.dueDate task) /\ has_time (Task.createdAt task).
Proof.
  intros task Htask. simpl in Htask.
  destruct Htask as [<- | [<- | [<- | [<- | []]]]];
    split; vm_compute; discriminate.
Qed.

Lemma view_is_sorted_by_its_key_witness :
  StronglySorted dueDate_ascending
    (@filteredAndSortedTasks SampleRuntime.runtime
       (TasksState.tasks (initialState SampleRuntime.Date_now)) initialView).
Proof.
  apply (@view_is_sorted_by_its_key SampleRuntime.runtime
           (TasksState.tasks (initialState SampleRuntime.Date_now)) initialView).
  intros task Htask. now apply initialState_has_times.
Defined.

(** X13. Displaying what is displayed changes nothing: run on its own
    output with the same parameters, the pipeline returns that output, for
    the priority key and, when the dates are valid, for the two date
    keys. *)
Theorem view_of_the_view_is_the_view
        (rt : JsRuntime) (tasks : list Task.t) (v : ViewParams)
        (Hkey : key_orders (sortBy v) tasks) :
  filteredAndSortedTasks (filteredAndSortedTasks tasks v) v =
  filteredAndSortedTasks tasks v.
Proof.
  pose proof (key_orders_not_name _ _ Hkey) as Hname.
  set (shown := filteredAndSortedTasks tasks v).
  rewrite filteredAndSortedTasks_staged, staged_matches_view.
  assert (Hall : filter (matches_view v) shown = shown).
  { apply filter_id_when_all. intros task Htask.
    now apply view_In in Htask. }
  rewrite Hall.
  apply (Array_sort_of_sorted (comparator (sortBy v)) (comparable (sortBy v))
                              (order_of (sortBy v))).
  - intros a b. now apply order_ge_verdict.
  - apply key_orders_comparable.
    destruct (sortBy v); simpl in *; auto; intros task Htask;
      apply view_In in Htask as [Htask _]; now apply Hkey.
  - now apply view_sorted.
Qed.

Lemma view_of_the_view_is_the_view_witness :
  let tasks := TasksState.tasks (initialState SampleRuntime.Date_now) in
  let v := mkView StatusActive None (Some "1") SortCreatedAt "re" in
  @filteredAndSortedTasks SampleRuntime.runtime
    (@filteredAndSortedTasks SampleRuntime.runtime tasks v) v =
  @filteredAndSortedTasks SampleRuntime.runtime tasks v.
Proof.
  apply view_of_the_view_is_the_view.
  intros task Htask. now apply initialState_has_times.
Defined.

Lemma status_split (v : ViewParams) (tasks : list Task.t) :
  (List.length (filter (matches_view (with_status v StatusCompleted)) tasks)
   + List.length (filter (matches_view (with_status v StatusActive)) tasks))%nat
  = List.length (filter (matches_view (with_status v StatusAll)) tasks).
Proof.
  induction tasks as [| task rest IH]; simpl; [reflexivity |].
  unfold matches_view in *. simpl in *.
  destruct (matches_search (searchQuery v) task),
           (Task.completed task),
           (matches_priority (priorityFilter v) task),
           (matches_tag (tagFilter v) task); simpl; lia.
Qed.

(** X14. With the other parameters fixed, the "completed" view and the
    "active" view share out the "all" view: their lengths add up to its
    length, and no task is in both. *)
Theorem completed_and_active_views_split_the_all_view
        (rt : JsRuntime) (tasks : list Task.t) (v : ViewParams) :
  (List.length (filteredAndSortedTasks tasks (with_status v StatusCompleted))
   + List.length (filteredAndSortedTasks tasks (with_status v StatusActive)))%nat
  = List.length (filteredAndSortedTasks tasks (with_status v StatusAll)) /\
  (forall task,
      In task (filteredAndSortedTasks tasks (with_status v StatusCompleted)) ->
      ~ In task (filteredAndSortedTasks tasks (with_status v StatusActive))).
Proof.
  split.
  - rewrite !(Permutation_length (view_perm tasks _)). apply status_split.
  - intros task Hc Ha.
    apply view_In in Hc as [_ Hc]. apply view_In in Ha as [_ Ha].
    unfold matches_view in *. simpl in *.
    destruct (Task.completed task);
      rewrite ?andb_false_r, ?andb_true_r in *; simpl in *; congruence.
Qed.

(** ** The search box *)

Lemma trimStart_cases (s : string) :
  (JsString.trimStart s = "" /\ all_white s = true) \/
  (exists c r, JsString.trimStart s = String c r /\
               JsString.is_white_space c = false /\ all_white s = false).
Proof.
  induction s as [| c r IH]; simpl.
  - now left.
  - destruct (JsString.is_white_space c) eqn:Hc; simpl.
    + exact IH.
    + right. exists c, r. repeat split. exact Hc.
Qed.

Lemma trimStart_empty_iff (s : string) :
  JsString.trimStart s = "" <-> all_white s = true.
Proof.
  destruct (trimStart_cases s) as [[H1 H2] | (c & r & H1 & _ & H2)];
    rewrite H1, H2; split; intros; congruence.
Qed.

Lemma reverse_empty_iff (s : string) : JsString.reverse s = "" <-> s = "".
Proof.
  unfold JsString.reverse. destruct s as [| c r]; simpl.
  - split; reflexivity.
  - split; [| discriminate]. intros H.
    destruct (rev (list_ascii_of_string r) ++ [c])%list eqn:Hl.
    + now apply app_eq_nil in Hl as [_ Hl].
    + discriminate H.
Qed.

Lemma all_white_forallb (s : string) :
  all_white s = forallb JsString.is_white_space (list_ascii_of_string s).
Proof.
  induction s as [| c r IH]; simpl; [reflexivity | now rewrite IH].
Qed.

Lemma forallb_rev {A : Type} (f : A -> bool) (l : list A) :
  forallb f (rev l) = forallb f l.
Proof.
  induction l as [| x rest IH]; simpl; [reflexivity |].
  rewrite forallb_app, IH. simpl. rewrite andb_true_r. apply andb_comm.
Qed.

Lemma all_white_reverse (s : string) :
  all_white (JsString.reverse s) = all_white s.
Proof.
  unfold JsString.reverse.
  rewrite !all_white_forallb, list_ascii_of_string_of_list_ascii.
  apply forallb_rev.
Qed.

(** [s.trim()] is empty exactly when [s] is white space only. *)
Lemma trim_empty_iff (s : string) :
  JsString.trim s = "" <-> all_white s = true.
Proof.
  unfold JsString.trim.
  rewrite reverse_empty_iff, trimStart_empty_iff, all_white_reverse.
  destruct (trimStart_cases s) as [[H1 H2] | (c & r & H1 & Hc & H2)];
    rewrite H1, H2; simpl.
  - split; reflexivity.
  - rewrite Hc. simpl. split; intros; congruence.
Qed.

Lemma search_is_on (q : string) :
  str_neq (JsString.trim q) "" = negb (all_white q).
Proof.
  unfold str_neq. destruct (all_white q) eqn:Hw; simpl.
  - apply trim_empty_iff in Hw. rewrite Hw. reflexivity.
  - apply negb_true_iff. apply String.eqb_neq. intros H.
    apply trim_empty_iff in H. congruence.
Qed.

Lemma is_white_space_lower_char (c : ascii) :
  JsString.is_white_space (JsString.lower_char c) = JsString.is_white_space c.
Proof.
  destruct c as [[] [] [] [] [] [] [] []]; reflexivity.
Qed.

Lemma all_white_toLowerCase (s : string) :
  all_white (JsString.toLowerCase s) = all_white s.
Proof.
  induction s as [| c r IH]; simpl; [reflexivity |].
  now rewrite is_white_space_lower_char, IH.
Qed.

Lemma matches_search_same_lower (q q' : string) (task : Task.t) :
  JsString.toLowerCase q = JsString.toLowerCase q' ->
  matches_search q task = matches_search q' task.
Proof.
  intros Hlow. unfold matches_search. rewrite !search_is_on.
  rewrite <- (all_white_toLowerCase q), <- (all_white_toLowerCase q'), Hlow.
  reflexivity.
Qed.

Lemma view_same_search (rt : JsRuntime) (tasks : list Task.t) (v : ViewParams)
      (q q' : string) :
  (forall task, matches_search q task = matches_search q' task) ->
  filteredAndSortedTasks tasks (with_query v q) =
  filteredAndSortedTasks tasks (with_query v q').
Proof.
  intros Hsame. rewrite !filteredAndSortedTasks_staged. unfold staged. simpl.
  do 4 f_equal. now apply filter_ext.
Qed.

(** X15. The search does not look at the case of the query: two queries
    with the same lower-case form give the same view. A query of white
    space only is no query at all: the view is the one of the empty
    query. *)
Theorem search_ignores_case_and_blank_queries
        (rt : JsRuntime) (tasks : list Task.t) (v : ViewParams) (q q' : string)
        (Hcase : JsString.toLowerCase q = JsString.toLowerCase q') :
  filteredAndSortedTasks tasks (with_query v q) =
  filteredAndSortedTasks tasks (with_query v q') /\
  (forall blank, all_white blank = true ->
     filteredAndSortedTasks tasks (with_query v blank) =
     filteredAndSortedTasks tasks (with_query v "")).
Proof.
  split.
  - apply view_same_search. intros task.
    now apply matches_search_same_lower.
  - intros blank Hblank. apply view_same_search. intros task.
    unfold matches_search. rewrite !search_is_on, Hblank. reflexivity.
Qed.

Lemma search_ignores_case_and_blank_queries_witness :
  let tasks := TasksState.tasks (initialState SampleRuntime.Date_now) in
  @filteredAndSortedTasks SampleRuntime.runtime tasks
     (with_query initialView "REACT") =
  @filteredAndSortedTasks SampleRuntime.runtime tasks
     (with_query initialView "react") /\
  (forall blank, all_white blank = true ->
     @filteredAndSortedTasks SampleRuntime.runtime tasks
        (with_query initialView blank) =
     @filteredAndSortedTasks SampleRuntime.runtime tasks
        (with_query initialView "")).
Proof.
  apply search_ignores_case_and_blank_queries. reflexivity.
Defined.

(* ===================================================================== *)
(** * Numbers shown and read back                                          *)
(* ===================================================================== *)

Lemma all_digits_string_of_uint (d : Decimal.uint) :
  all_digits (NilEmpty.string_of_uint d) = true.
Proof. induction d; simpl; auto. Qed.

Lemma digits_acc (d : Decimal.uint) (acc : positive) :
  ParseInt.digits 10 (Some (Zpos acc)) (NilEmpty.string_of_uint d) =
  Some (Zpos (Pos.of_uint_acc d acc)).
Proof.
  revert acc. induction d; intros acc; simpl NilEmpty.string_of_uint;
    [reflexivity | ..];
    cbn [ParseInt.digits]; 
    match goal with
    | |- context [ParseInt.digit_value 10 ?c] =>
        change (ParseInt.digit_value 10 c) with (Some (Z.of_nat (nat_of_ascii c) - 48))
    end; cbn [Pos.of_uint_acc]; rewrite <- IHd; f_equal.
  all: f_equal;
    match goal with
    | |- context [Z.of_nat ?n] =>
        let v := eval vm_compute in (Z.of_nat n) in
        change (Z.of_nat n) with v
    end; lia.
Qed.

Lemma digits_zero (d : Decimal.uint) :
  ParseInt.digits 10 (Some 0) (NilEmpty.string_of_uint d) =
  Some (Z.of_N (Pos.of_uint d)).
Proof.
  induction d; simpl NilEmpty.string_of_uint; [reflexivity | ..];
    cbn [ParseInt.digits];
    match goal with
    | |- context [ParseInt.digit_value 10 ?c] =>
        change (ParseInt.digit_value 10 c) with (Some (Z.of_nat (nat_of_ascii c) - 48))
    end; cbn [Pos.of_uint];
    [exact IHd | ..]; simpl Z.add; apply digits_acc.
Qed.

Lemma digits_start (d : Decimal.uint) :
  d <> Decimal.Nil ->
  ParseInt.digits 10 None (NilEmpty.string_of_uint d) =
  Some (Z.of_N (Pos.of_uint d)).
Proof.
  intros Hd. rewrite <- digits_zero.
  destruct d; [congruence | ..]; reflexivity.
Qed.

Lemma is_digit_cases (c : ascii) :
  is_digit c = true ->
  JsString.is_white_space c = false /\ c <> "-"%char /\ c <> "+"%char /\
  c <> "x"%char /\ c <> "X"%char.
Proof.
  destruct c as [[] [] [] [] [] [] [] []]; intros H;
    try discriminate H; repeat split; discriminate.
Qed.

Lemma parseInt_digits (s : string) :
  s <> "" -> all_digits s = true ->
  ParseInt.parseInt s =
  match ParseInt.digits 10 None s with Some m => Int m | None => NaN end /\
  ParseInt.parseInt (String "-" s) =
  match ParseInt.digits 10 None s with Some m => Int (-1 * m) | None => NaN end.
Proof.
  intros Hne Hall. destruct s as [| c r]; [congruence |].
  simpl in Hall. apply andb_true_iff in Hall as [Hc Hr].
  destruct (is_digit_cases c Hc) as (Hw & Hminus & Hplus & _).
  assert (Hhex : ParseInt.strip_hex_prefix (String c r) = None).
  { destruct r as [| c2 r2].
    - destruct c as [[] [] [] [] [] [] [] []]; reflexivity.
    - simpl in Hr. apply andb_true_iff in Hr as [Hc2 _].
      destruct (is_digit_cases c2 Hc2) as (_ & _ & _ & Hx & HX).
      unfold ParseInt.strip_hex_prefix.
      destruct c as [[] [] [] [] [] [] [] []]; try reflexivity;
      destruct c2 as [[] [] [] [] [] [] [] []]; try reflexivity; congruence. }
  unfold ParseInt.parseInt. split.
  - simpl JsString.trimStart. rewrite Hw.
    destruct c as [[] [] [] [] [] [] [] []]; try congruence;
      try discriminate Hc; rewrite Hhex; destruct (ParseInt.digits 10 None _); try reflexivity; f_equal; lia.
  - cbn [JsString.trimStart]. 
    change (JsString.is_white_space "-") with false. cbv iota.
    rewrite Hhex. reflexivity.
Qed.

Lemma parseInt_Number_toString (n : Z) :
  ParseInt.parseInt (Number_toString n) = Int n.
Proof.
  unfold Number_toString. destruct n as [| p | p]; [reflexivity | ..]; simpl Z.to_int.
  - unfold NilZero.string_of_int, NilZero.string_of_uint.
    pose proof (DecimalPos.Unsigned.to_uint_nonnil p) as Hnil.
    destruct (Pos.to_uint p) eqn:Hu; [congruence | ..]; rewrite <- Hu;
    (destruct (parseInt_digits (NilEmpty.string_of_uint (Pos.to_uint p))) as [H _];
     [ rewrite Hu; discriminate | apply all_digits_string_of_uint |];
     rewrite H, digits_start by (rewrite Hu; discriminate);
     now rewrite DecimalPos.Unsigned.of_to).
  - unfold NilZero.string_of_int, NilZero.string_of_uint.
    pose proof (DecimalPos.Unsigned.to_uint_nonnil p) as Hnil.
    destruct (Pos.to_uint p) eqn:Hu; [congruence | ..]; rewrite <- Hu;
    (destruct (parseInt_digits (NilEmpty.string_of_uint (Pos.to_uint p))) as [_ H];
     [ rewrite Hu; discriminate | apply all_digits_string_of_uint |];
     rewrite H, digits_start by (rewrite Hu; discriminate);
     now rewrite DecimalPos.Unsigned.of_to).
Qed.

Lemma Number_toString_nonempty (n : Z) : Number_toString n <> "".
Proof.
  unfold Number_toString.
  destruct n as [| p | p]; simpl; try discriminate.
  unfold NilZero.string_of_uint.
  pose proof (DecimalPos.Unsigned.to_uint_nonnil p) as Hnil.
  destruct (Pos.to_uint p); try congruence; discriminate.
Qed.

(** X16. A priority select shows [priority.toString()] and stores
    [Number.parseInt(value)]: for every integer that a JavaScript number
    holds exactly, the text that is shown is not empty (so that it is
    truthy), starts with no white space, and parsing it gives the number
    back: choosing the option that is shown changes nothing. *)
Theorem parseInt_reads_back_toString
        (n : Z) (Hsafe : Z.abs n <= MAX_SAFE_INTEGER) :
  ParseInt.parseInt (Number_toString n) = Int n /\
  JsString.truthy (Number_toString n) = true /\
  JsString.trimStart (Number_toString n) = Number_toString n.
Proof.
  split; [apply parseInt_Number_toString |]. split.
  - unfold JsString.truthy. apply negb_true_iff. apply String.eqb_neq.
    apply Number_toString_nonempty.
  - unfold Number_toString.
    destruct n as [| p | p]; [reflexivity | ..]; simpl Z.to_int;
      unfold NilZero.string_of_int, NilZero.string_of_uint;
      pose proof (DecimalPos.Unsigned.to_uint_nonnil p) as Hnil;
      destruct (Pos.to_uint p); try congruence; reflexivity.
Qed.

Lemma parseInt_reads_back_toString_witness :
  ParseInt.parseInt (Number_toString 1762128000000) = Int 1762128000000 /\
  JsString.truthy (Number_toString 1762128000000) = true /\
  JsString.trimStart (Number_toString 1762128000000) =
    Number_toString 1762128000000.
Proof.
  apply parseInt_reads_back_toString. vm_compute. discriminate.
Defined.

(** X17. The priority selector of the filter bar can set a filter but not
    clear it. Its handler returns [null] for the empty string only, and no
    option has the empty value: the value shown for "no filter" is ["0"],
    and choosing it sets the filter 0. For an integer filter the value
    shown leads back to that filter. The tag selector does clear: the value
    shown for any tag filter other than [""] and ["0"] leads back to that
    filter, and the value ["0"] to no filter. *)
Theorem selectors_round_trip (n : Z) (tagFilter : option string)
        (Hsafe : Z.abs n <= MAX_SAFE_INTEGER)
        (Hnot_empty : tagFilter <> Some "")
        (Hnot_zero : tagFilter <> Some "0") :
  onPriorityChange (prioritySelectValue (Some (Int n))) = Some (Int n) /\
  onPriorityChange (prioritySelectValue None) = Some (Int 0) /\
  (forall value, onPriorityChange value = None <-> value = "") /\
  onTagChange (tagSelectValue tagFilter) = tagFilter /\
  onTagChange (tagSelectValue (Some "0")) = None /\
  onTagChange (tagSelectValue (Some "")) = None.
Proof.
  assert (Htruthy : JsString.truthy (Number_toString n) = true).
  { unfold JsString.truthy. apply negb_true_iff. apply String.eqb_neq.
    apply Number_toString_nonempty. }
  repeat split.
  - unfold prioritySelectValue, onPriorityChange. simpl number_toString.
    rewrite Htruthy, Htruthy. now rewrite parseInt_Number_toString.
  - unfold onPriorityChange. destruct value as [| c r]; [reflexivity |].
    simpl. discriminate.
  - intros ->. reflexivity.
  - destruct tagFilter as [s |]; [| reflexivity].
    unfold tagSelectValue, onTagChange, JsString.truthy, str_eq.
    destruct (String.eqb s "") eqn:He; simpl.
    + apply String.eqb_eq in He. congruence.
    + destruct (String.eqb s "0") eqn:Hz; [| reflexivity].
      apply String.eqb_eq in Hz. congruence.
Qed.

Lemma selectors_round_trip_witness :
  onPriorityChange (prioritySelectValue (Some (Int 4))) = Some (Int 4) /\
  onPriorityChange (prioritySelectValue None) = Some (Int 0) /\
  (forall value, onPriorityChange value = None <-> value = "") /\
  onTagChange (tagSelectValue (Some "2")) = Some "2" /\
  onTagChange (tagSelectValue (Some "0")) = None /\
  onTagChange (tagSelectValue (Some "")) = None.
Proof.
  apply selectors_round_trip.
  - vm_compute. discriminate.
  - discriminate.
  - discriminate.
Defined.

(* ===================================================================== *)
(** * Further properties of the drag handler                               *)
(* ===================================================================== *)

Lemma map_index_positions (start : nat) (items : list Task.t) :
  map Task.position
      (map_index (fun item index => Task.with_position item (Z.of_nat index))
                 start items) =
  map Z.of_nat (seq start (List.length items)).
Proof.
  revert start. induction items as [| x rest IH]; intros start; simpl.
  - reflexivity.
  - now rewrite IH.
Qed.

Lemma map_index_length {A B : Type} (f : A -> nat -> B) (start : nat)
      (items : list A) :
  List.length (map_index f start items) = List.length items.
Proof.
  revert start. induction items as [| x rest IH]; intros start; simpl.
  - reflexivity.
  - now rewrite IH.
Qed.

Lemma map_index_without_position (start : nat) (items : list Task.t) :
  map without_position
      (map_index (fun item index => Task.with_position item (Z.of_nat index))
                 start items) =
  map without_position items.
Proof.
  revert start. induction items as [| x rest IH]; intros start; simpl.
  - reflexivity.
  - now rewrite IH.
Qed.

Lemma splice_length {A : Type} (src dest : nat) (x : A) (items : list A) :
  nth_error items src = Some x ->
  List.length (splice_in dest x (splice_out src items)) = List.length items.
Proof.
  intros Hnth.
  rewrite (Permutation_length (splice_in_perm dest x (splice_out src items))).
  now rewrite (Permutation_length (splice_out_perm src x items Hnth)).
Qed.

Lemma map_splice_in {A B : Type} (f : A -> B) (i : nat) (x : A) (l : list A) :
  map f (splice_in i x l) = splice_in i (f x) (map f l).
Proof.
  unfold splice_in. now rewrite map_app, firstn_map, skipn_map.
Qed.

Lemma map_splice_out {A B : Type} (f : A -> B) (i : nat) (l : list A) :
  map f (splice_out i l) = splice_out i (map f l).
Proof.
  unfold splice_out. now rewrite map_app, firstn_map, skipn_map.
Qed.

(** The handler's payload, when the drag ends inside the list. *)
Lemma handleDragEnd_payload (displayed : list Task.t) (result : DropResult)
      (dest : nat) (item : Task.t) :
  destination result = Some dest ->
  nth_error displayed (source_index result) = Some item ->
  handleDragEnd displayed result =
  Dispatch (REORDER_TASKS
              (map_index (fun item index =>
                            Task.with_position item (Z.of_nat index)) 0%nat
                 (splice_in dest item
                    (splice_out (source_index result) displayed)))).
Proof.
  intros Hdest Hsrc. unfold handleDragEnd. now rewrite Hdest, Hsrc.
Qed.

(** X18. A drag that ends inside the list dispatches as many tasks as are
    displayed and numbers them 0, 1, 2, ... in their new order: positions
    are dense and start at zero whatever they were before. *)
Theorem drag_renumbers_from_zero
        (displayed : list Task.t) (result : DropResult)
        (dest : nat) (item : Task.t)
        (Hdest : destination result = Some dest)
        (Hsrc : nth_error displayed (source_index result) = Some item) :
  exists payload,
    handleDragEnd displayed result = Dispatch (REORDER_TASKS payload) /\
    List.length payload = List.length displayed /\
    map Task.position payload =
      map Z.of_nat (seq 0 (List.length displayed)).
Proof.
  eexists. split; [now apply (handleDragEnd_payload displayed result dest item) |].
  rewrite map_index_length, map_index_positions.
  rewrite (splice_length (source_index result) dest item displayed Hsrc).
  split; reflexivity.
Qed.

Lemma drag_renumbers_from_zero_witness :
  let displayed :=
    @filteredAndSortedTasks SampleRuntime.runtime
      (TasksState.tasks (initialState SampleRuntime.Date_now)) initialView in
  exists payload,
    handleDragEnd displayed (mkDrop 3 (Some 0%nat)) =
      Dispatch (REORDER_TASKS payload) /\
    List.length payload = List.length displayed /\
    map Task.position payload =
      map Z.of_nat (seq 0 (List.length displayed)).
Proof.
  eapply drag_renumbers_from_zero; reflexivity.
Defined.

(** X19. When the view hides nothing, a drag loses nothing: the state
    afterwards holds the same tasks, each with all its fields but the
    position, and the same tags. *)
Theorem drag_without_hidden_tasks_keeps_every_task
        (rt : JsRuntime) (state : TasksState.t) (v : ViewParams)
        (result : DropResult) (dest : nat) (item : Task.t)
        (Hall : forall task, In task (TasksState.tasks state) ->
                             matches_view v task = true)
        (Hdest : destination result = Some dest)
        (Hsrc : nth_error (filteredAndSortedTasks (TasksState.tasks state) v)
                          (source_index result) = Some item) :
  exists state',
    after_drag state (filteredAndSortedTasks (TasksState.tasks state) v) result
      = Some state' /\
    TasksState.tags state' = TasksState.tags state /\
    Permutation (map without_position (TasksState.tasks state'))
                (map without_position (TasksState.tasks state)).
Proof.
  unfold after_drag.
  rewrite (handleDragEnd_payload _ result dest item Hdest Hsrc).
  eexists. split; [reflexivity |]. simpl. split; [reflexivity |].
  rewrite map_index_without_position. apply Permutation_map.
  eapply perm_trans; [apply splice_in_perm |].
  eapply perm_trans; [now apply splice_out_perm |].
  eapply perm_trans; [apply view_perm |].
  now rewrite filter_id_when_all.
Qed.

Lemma drag_without_hidden_tasks_keeps_every_task_witness :
  let state := initialState SampleRuntime.Date_now in
  exists state',
    after_drag state
      (@filteredAndSortedTasks SampleRuntime.runtime
         (TasksState.tasks state) initialView)
      (mkDrop 3 (Some 0%nat)) = Some state' /\
    TasksState.tags state' = TasksState.tags state /\
    Permutation (map without_position (TasksState.tasks state'))
                (map without_position (TasksState.tasks state)).
Proof.
  eapply (@drag_without_hidden_tasks_keeps_every_task
            SampleRuntime.runtime (initialState SampleRuntime.Date_now)
            initialView (mkDrop 3 (Some 0%nat))).
  - intros task Htask. simpl in Htask.
    destruct Htask as [<- | [<- | [<- | [<- | []]]]]; reflexivity.
  - reflexivity.
  - reflexivity.
Defined.

Lemma splice_in_lands {A : Type} (i : nat) (x : A) (l : list A) :
  nth_error (splice_in i x l) (Nat.min i (List.length l)) = Some x.
Proof.
  revert i. induction l as [| y rest IH]; intros [| i]; try reflexivity.
  apply (IH i).
Qed.

Lemma splice_out_of_splice_in {A : Type} (i : nat) (x : A) (l : list A) :
  splice_out (Nat.min i (List.length l)) (splice_in i x l) = l.
Proof.
  revert i. induction l as [| y rest IH]; intros [| i]; try reflexivity.
  specialize (IH i). unfold splice_out, splice_in in *. simpl in *.
  now rewrite IH.
Qed.

Lemma splice_back {A : Type} (i : nat) (x : A) (l : list A) :
  nth_error l i = Some x -> splice_in i x (splice_out i l) = l.
Proof.
  revert i. induction l as [| y rest IH]; intros [| i] Hnth; simpl in *;
    try discriminate.
  - now injection Hnth as ->.
  - unfold splice_in, splice_out in *. simpl. f_equal. now apply IH.
Qed.

(** X20. In the new order the dragged task sits at the index where it was
    dropped (at the end, if that index is past the end), and the other
    tasks keep the order they were displayed in; a task dropped where it
    was taken leaves the order as it was. *)
Theorem drag_moves_one_task_and_keeps_the_rest_in_order
        (displayed : list Task.t) (result : DropResult)
        (dest : nat) (item : Task.t)
        (Hdest : destination result = Some dest)
        (Hsrc : nth_error displayed (source_index result) = Some item) :
  exists payload,
    handleDragEnd displayed result = Dispatch (REORDER_TASKS payload) /\
    let landing := Nat.min dest (List.length displayed - 1) in
    nth_error (map without_position payload) landing =
      Some (without_position item) /\
    splice_out landing (map without_position payload) =
      splice_out (source_index result) (map without_position displayed) /\
    (dest = source_index result ->
     map without_position payload = map without_position displayed).
Proof.
  eexists. split; [now apply (handleDragEnd_payload displayed result dest item) |].
  cbv zeta. rewrite map_index_without_position, map_splice_in, map_splice_out.
  assert (Hlen : (List.length displayed - 1)%nat =
                 List.length (splice_out (source_index result)
                                (map without_position displayed))).
  { apply (f_equal (option_map without_position)) in Hsrc.
    rewrite <- nth_error_map in Hsrc. simpl in Hsrc.
    pose proof (Permutation_length
                  (splice_out_perm _ _ _ Hsrc)) as Hp.
    simpl in Hp. rewrite length_map in Hp. lia. }
  rewrite Hlen. split; [apply splice_in_lands |].
  split; [apply splice_out_of_splice_in |].
  intros ->. apply splice_back.
  rewrite nth_error_map, Hsrc. reflexivity.
Qed.

Lemma drag_moves_one_task_and_keeps_the_rest_in_order_witness :
  let displayed :=
    @filteredAndSortedTasks SampleRuntime.runtime
      (TasksState.tasks (initialState SampleRuntime.Date_now)) initialView in
  exists payload,
    handleDragEnd displayed (mkDrop 3 (Some 0%nat)) =
      Dispatch (REORDER_TASKS payload) /\
    let landing := Nat.min 0 (List.length displayed - 1) in
    nth_error (map without_position payload) landing =
      option_map without_position (nth_error displayed 3) /\
    splice_out landing (map without_position payload) =
      splice_out 3 (map without_position displayed) /\
    (0%nat = 3%nat ->
     map without_position payload = map without_position displayed).
Proof.
  eapply (@drag_moves_one_task_and_keeps_the_rest_in_order
            _ (mkDrop 3 (Some 0%nat))); reflexivity.
Defined.

(* ===================================================================== *)
(** * The add dialog                                                       *)
(* ===================================================================== *)

Lemma option_value_parses (o : PriorityOption) :
  ParseInt.parseInt (option_value o) =
  Int (match o with
       | VeryLow => 1 | Low => 2 | Medium => 3 | High => 4 | VeryHigh => 5
       end).
Proof. destruct o; reflexivity. Qed.

Lemma set_priority_range (t : NewTask.t) (o : PriorityOption) :
  1 <= NewTask.priority t <= 5 ->
  1 <= NewTask.priority (set_priority t o) <= 5 /\
  NewTask.completed (set_priority t o) = NewTask.completed t.
Proof.
  intros _. unfold set_priority.
  rewrite (option_value_parses o). simpl. split; [| reflexivity].
  destruct o; simpl; lia.
Qed.

(** The form never holds a completed task or a priority outside 1..5. *)
Lemma form_reachable_invariant (form : AddTaskForm) :
  form_reachable form ->
  NewTask.completed (newTask form) = false /\
  1 <= NewTask.priority (newTask form) <= 5.
Proof.
  induction 1 as [today | form state event Hreach [Hc Hp]].
  - simpl. lia.
  - destruct event as [open | v | v | [d |] | o | id | clock]; simpl;
      try (split; assumption).
    + destruct (set_priority_range (newTask form) o Hp) as [Hp' Hc'].
      split; [congruence | exact Hp'].
    + unfold handleAddTask.
      destruct (str_eq (JsString.trim (NewTask.name (newTask form))) "");
        simpl; [split; assumption | lia].
Qed.

(** X21. Whatever the user did in the add dialog before, [handleAddTask]
    dispatches nothing when the name is blank, and otherwise dispatches one
    [ADD_TASK] whose task has a name that is not blank, is not completed,
    has no [completedAt], a priority in 1..5, the number of tasks of the
    state as its position and the clock reading in decimal as its id; the
    reducer then appends this task and leaves the others alone. *)
Theorem add_dialog_creates_well_formed_tasks
        (form : AddTaskForm) (state : TasksState.t) (Date_now : nat -> Z)
        (Hreach : form_reachable form) :
  (all_white (NewTask.name (newTask form)) = true ->
   handleAddTask state form Date_now = (None, form) /\
   after_add_task state form Date_now = state) /\
  (all_white (NewTask.name (newTask form)) = false ->
   exists task,
     fst (handleAddTask state form Date_now) = Some (ADD_TASK task) /\
     after_add_task state form Date_now =
       TasksState.mk (TasksState.tasks state ++ [task]) (TasksState.tags state) /\
     Task.id task = Number_toString (Date_now 0%nat) /\
     Task.name task = NewTask.name (newTask form) /\
     Task.completed task = false /\
     Task.completedAt task = None /\
     completion_consistent task /\
     1 <= Task.priority task <= 5 /\
     Task.position task = Z.of_nat (List.length (TasksState.tasks state))).
Proof.
  destruct (form_reachable_invariant form Hreach) as [Hc Hp].
  unfold after_add_task, handleAddTask. split; intros Hname.
  - apply trim_empty_iff in Hname. rewrite Hname. simpl. split; reflexivity.
  - assert (Hne : str_eq (JsString.trim (NewTask.name (newTask form))) "" = false).
    { apply str_eq_false. intros H. apply trim_empty_iff in H. congruence. }
    rewrite Hne. simpl. eexists. split; [reflexivity |].
    split; [reflexivity |]. simpl. rewrite Hc.
    repeat split; try assumption; try lia.
    + discriminate.
    + intros H. now contradiction H.
Qed.

Lemma add_dialog_creates_well_formed_tasks_witness :
  let form :=
    snd (AddTaskForm_step (initialState SampleRuntime.Date_now)
           (snd (AddTaskForm_step (initialState SampleRuntime.Date_now)
                   (mkAddTaskForm false (blank_task (ValidDate 0)))
                   (TypeTaskName "Water the plants")))
           (SelectPriority VeryHigh)) in
  exists task,
    fst (handleAddTask (initialState SampleRuntime.Date_now) form
                       SampleRuntime.Date_now) = Some (ADD_TASK task) /\
    Task.id task = "1762128000000" /\
    Task.priority task = 5 /\
    Task.completed task = false /\
    Task.position task = 4.
Proof.
  cbv zeta.
  destruct (@add_dialog_creates_well_formed_tasks
              (snd (AddTaskForm_step (initialState SampleRuntime.Date_now)
                 (snd (AddTaskForm_step (initialState SampleRuntime.Date_now)
                         (mkAddTaskForm false (blank_task (ValidDate 0)))
                         (TypeTaskName "Water the plants")))
                 (SelectPriority VeryHigh)))
              (initialState SampleRuntime.Date_now) SampleRuntime.Date_now)
    as [_ Hadd].
  - do 2 apply form_step. apply form_initial.
  - destruct (Hadd eq_refl) as (task & Hdispatch & _ & Hid & _ & Hc & _).
    exists task. split; [exact Hdispatch |].
    simpl in Hdispatch. injection Hdispatch as <-.
    repeat split.
Defined.

Lemma Number_toString_injective (a b : Z) :
  Number_toString a = Number_toString b -> a = b.
Proof.
  intros H. apply (f_equal ParseInt.parseInt) in H.
  rewrite !parseInt_Number_toString in H. now injection H.
Qed.

(** X22. Ids of added tasks are clock readings in decimal: two different
    readings give two different ids, so a task added at a reading whose
    text is the id of no task keeps the ids of the state pairwise
    distinct, while two tasks added at the same reading share their id. *)
Theorem add_dialog_ids_follow_the_clock
        (state : TasksState.t) (form : AddTaskForm) (Date_now : nat -> Z)
        (Hunique : ids_unique state)
        (Hfresh : forall task, In task (TasksState.tasks state) ->
                               Task.id task <> Number_toString (Date_now 0%nat)) :
  ids_unique (after_add_task state form Date_now) /\
  (forall a b : Z, Number_toString a = Number_toString b -> a = b) /\
  (all_white (NewTask.name (newTask form)) = false ->
   ~ ids_unique (after_add_task (after_add_task state form Date_now)
                                form Date_now)).
Proof.
  split; [| split].
  - unfold after_add_task, handleAddTask.
    destruct (str_eq (JsString.trim (NewTask.name (newTask form))) "");
      simpl; [exact Hunique |].
    unfold ids_unique in *. cbn [tasksReducer TasksState.tasks].
    rewrite map_app. simpl. apply NoDup_app.
    + exact Hunique.
    + constructor; [intros [] | constructor].
    + intros x Hx [<- | []].
      apply in_map_iff in Hx as [task [Hid Htask]].
      now apply (Hfresh task).
  - apply Number_toString_injective.
  - intros Hname.
    assert (Hne : str_eq (JsString.trim (NewTask.name (newTask form))) "" = false).
    { apply str_eq_false. intros H. apply trim_empty_iff in H. congruence. }
    unfold after_add_task, handleAddTask, ids_unique. rewrite Hne. simpl.
    rewrite !map_app. simpl. intros Hnd.
    apply NoDup_remove_2 in Hnd. apply Hnd.
    rewrite app_nil_r. apply in_or_app. right. now left.
Qed.

Lemma add_dialog_ids_follow_the_clock_witness :
  let state := initialState SampleRuntime.Date_now in
  let form := mkAddTaskForm true
                (NewTask.mk "Water the plants" "" (ValidDate 0) false 3 []) in
  ids_unique (after_add_task state form SampleRuntime.Date_now) /\
  (forall a b : Z, Number_toString a = Number_toString b -> a = b) /\
  (all_white (NewTask.name (newTask form)) = false ->
   ~ ids_unique (after_add_task (after_add_task state form SampleRuntime.Date_now)
                                form SampleRuntime.Date_now)).
Proof.
  apply add_dialog_ids_follow_the_clock.
  - unfold ids_unique. simpl.
    repeat (constructor; [simpl; intuition discriminate |]). constructor.
  - intros task Htask. simpl in Htask.
    destruct Htask as [<- | [<- | [<- | [<- | []]]]]; vm_compute; discriminate.
Defined.

(* ===================================================================== *)
(** * Tag chips and the tag manager                                        *)
(* ===================================================================== *)

Lemma array_includes_In (l : list string) (x : string) :
  array_includes l x = true <-> In x l.
Proof.
  unfold array_includes. rewrite existsb_exists. split.
  - intros [y [Hy Heq]]. apply str_eq_true in Heq. now subst.
  - intros Hx. exists x. split; [exact Hx |]. now apply str_eq_true.
Qed.

(** X23. Clicking a tag chip flips the membership of that tag id in the
    selection and of no other id, and never creates a duplicate. Clicking
    it twice gives the selection back when the id was not selected; when it
    was, the id has moved to the end of the selection. *)
Theorem tag_chip_toggles_membership (tags : list string) (tagId : string) :
  (In tagId (toggle_tag tags tagId) <-> ~ In tagId tags) /\
  (forall other, other <> tagId ->
                 (In other (toggle_tag tags tagId) <-> In other tags)) /\
  (NoDup tags -> NoDup (toggle_tag tags tagId)) /\
  (~ In tagId tags -> toggle_tag (toggle_tag tags tagId) tagId = tags) /\
  (In tagId tags ->
   toggle_tag (toggle_tag tags tagId) tagId =
   (filter (fun id => str_neq id tagId) tags ++ [tagId])%list).
Proof.
  unfold toggle_tag.
  destruct (array_includes tags tagId) eqn:Hin.
  - apply array_includes_In in Hin.
    assert (Hout : array_includes (filter (fun id => str_neq id tagId) tags)
                                  tagId = false).
    { apply not_true_is_false. intros Hc. apply array_includes_In in Hc.
      apply filter_In in Hc as [_ Hc]. apply str_neq_true in Hc.
      now apply Hc. }
    split; [| split; [| split; [| split]]].
    + split.
      * intros Hc. apply filter_In in Hc as [_ Hc].
        apply str_neq_true in Hc. now contradiction Hc.
      * intros Hc. now contradiction Hc.
    + intros other Hne. split.
      * intros Hc. now apply filter_In in Hc as [Hc _].
      * intros Hc. apply filter_In. split; [exact Hc |].
        now apply str_neq_true.
    + intros Hnd. now apply NoDup_filter.
    + intros Hc. now contradiction Hc.
    + intros _. now rewrite Hout.
  - assert (Hnot : ~ In tagId tags).
    { intros Hc. apply array_includes_In in Hc. congruence. }
    assert (Hnow : array_includes (tags ++ [tagId]) tagId = true).
    { apply array_includes_In. apply in_or_app. right. now left. }
    split; [| split; [| split; [| split]]].
    + split.
      * intros _. exact Hnot.
      * intros _. apply in_or_app. right. now left.
    + intros other Hne. split.
      * intros Hc. apply in_app_or in Hc as [Hc | [Hc | []]];
          [exact Hc | congruence].
      * intros Hc. apply in_or_app. now left.
    + intros Hnd. apply NoDup_app;
        [exact Hnd | repeat constructor; intros [] |].
      intros x Hx [<- | []]. now apply Hnot.
    + intros _. rewrite Hnow. apply filter_app_one_out.
      * unfold str_neq. now rewrite String.eqb_refl.
      * intros y Hy. apply str_neq_true. intros ->. now apply Hnot.
    + intros Hc. now contradiction Hnot.
Qed.

Lemma TagManager_step_invariant
      (state : TasksState.t) (tm : TagManager) (event : TagManagerEvent) :
  offered state event ->
  editor_points_at_a_tag state tm /\ tags_are_named state ->
  editor_points_at_a_tag (fst (TagManager_step state tm event))
                         (snd (TagManager_step state tm event)) /\
  tags_are_named (fst (TagManager_step state tm event)).
Proof.
  intros Hoffered [Hed Hnamed].
  unfold editor_points_at_a_tag, tags_are_named in *.
  destruct state as [tasks tags]. destruct tm as [draft editing].
  destruct event as [v | v | now | tag | v | v | | | id]; simpl in *.
  - split; assumption.
  - split; assumption.
  - unfold handleAddTag. simpl.
    destruct (str_eq (JsString.trim (NewTag.name draft)) "") eqn:Hblank; simpl.
    + split; assumption.
    + split.
      * destruct editing as [e |]; [| exact I].
        destruct Hed as [g [Hg Hid]]. exists g.
        split; [apply in_or_app; now left | exact Hid].
      * intros g Hg. apply in_app_or in Hg as [Hg | [<- | []]].
        -- now apply Hnamed.
        -- simpl. apply not_true_is_false. intros Hw.
           apply trim_empty_iff in Hw. apply str_eq_false in Hblank.
           now apply Hblank.
  - split; [| assumption]. exists tag. split; [exact Hoffered | reflexivity].
  - split; [| assumption]. destruct editing as [e |]; simpl; assumption.
  - split; [| assumption]. destruct editing as [e |]; simpl; assumption.
  - unfold handleUpdateTag. simpl. destruct editing as [e |]; simpl.
    + destruct (str_eq (JsString.trim (TaskTag.name e)) "") eqn:Hblank; simpl.
      * split; assumption.
      * split; [exact I |].
        intros g Hg. apply in_map_iff in Hg as [old [Hg Hold]].
        destruct (str_eq (TaskTag.id old) (TaskTag.id e)).
        -- subst g. apply not_true_is_false. intros Hw.
           apply trim_empty_iff in Hw. apply str_eq_false in Hblank.
           now apply Hblank.
        -- subst g. now apply Hnamed.
    + split; [exact I | assumption].
  - split; [exact I | assumption].
  - unfold handleDeleteTag. simpl. split.
    + destruct editing as [e |]; simpl; [| exact I].
      destruct (str_eq (TaskTag.id e) id) eqn:Hhit; simpl; [exact I |].
      destruct Hed as [g [Hg Hid]]. exists g. split; [| exact Hid].
      apply filter_In. split; [exact Hg |].
      apply str_neq_true. apply str_eq_false in Hhit. congruence.
    + intros g Hg. apply filter_In in Hg as [Hg _]. now apply Hnamed.
Qed.

(** X24. Through any session of the tag manager, the tag in the editor is
    a tag of the store (by id): deleting the tag that is being edited
    closes the editor. And no tag with a blank name gets into the store:
    [handleAddTag] and [handleUpdateTag] dispatch nothing for a blank
    name. *)
Theorem tag_manager_keeps_its_editor_valid
        (state state' : TasksState.t) (tm tm' : TagManager)
        (Hrun : TagManager_run state tm state' tm')
        (Heditor : editor_points_at_a_tag state tm)
        (Hnamed : tags_are_named state) :
  editor_points_at_a_tag state' tm' /\ tags_are_named state'.
Proof.
  induction Hrun as [state tm | state tm event state' tm' Hoffered Hrun IH].
  - split; assumption.
  - destruct (TagManager_step_invariant state tm event Hoffered
                (conj Heditor Hnamed)) as [He Hn].
    now apply IH.
Qed.

Lemma tag_manager_keeps_its_editor_valid_witness :
  let state := initialState SampleRuntime.Date_now in
  let work := TaskTag.mk "1" "Work" "#3b82f6" in
  let tm := mkTagManager blank_tag None in
  let after_edit := TagManager_step state tm (ClickEdit work) in
  let after_delete :=
    TagManager_step (fst after_edit) (snd after_edit) (ClickDelete "1") in
  editingTag (snd after_delete) = None /\
  editor_points_at_a_tag (fst after_delete) (snd after_delete) /\
  tags_are_named (fst after_delete).
Proof.
  cbv zeta. split; [reflexivity |].
  apply (@tag_manager_keeps_its_editor_valid
           (initialState SampleRuntime.Date_now) _
           (mkTagManager blank_tag None) _).
  - eapply (run_event _ _ (ClickEdit (TaskTag.mk "1" "Work" "#3b82f6")));
      [simpl; tauto |].
    eapply (run_event _ _ (ClickDelete "1")); [exact I |]. apply run_done.
  - exact I.
  - intros tag Htag. simpl in Htag.
    destruct Htag as [<- | [<- | [<- | []]]]; reflexivity.
Defined.

(* ===================================================================== *)
(** * Further properties of the analytics                                  *)
(* ===================================================================== *)

Lemma count_priority_cons (p : Z) (task : Task.t) (tasks : list Task.t) :
  count_priority p (task :: tasks) =
  (if Task.priority task =? p then 1 else 0) + count_priority p tasks.
Proof.
  unfold count_priority. simpl.
  destruct (Task.priority task =? p); simpl List.length; lia.
Qed.

Lemma priorityDistribution_from (tasks : list Task.t) (a b c d e : Z) :
  fold_left
    (fun counts task =>
       if (1 <=? Task.priority task) && (Task.priority task <=? 5)
       then increment_at (Z.to_nat (Task.priority task - 1)) counts
       else counts)
    tasks [a; b; c; d; e] =
  [a + count_priority 1 tasks; b + count_priority 2 tasks;
   c + count_priority 3 tasks; d + count_priority 4 tasks;
   e + count_priority 5 tasks].
Proof.
  revert a b c d e. induction tasks as [| task rest IH]; intros a b c d e.
  - unfold count_priority. simpl. now rewrite !Z.add_0_r.
  - cbn [fold_left]. rewrite !count_priority_cons.
    destruct ((1 <=? Task.priority task) && (Task.priority task <=? 5)) eqn:Hin.
    + apply andb_true_iff in Hin as [Hlo Hhi].
      apply Z.leb_le in Hlo, Hhi.
      assert (Hcases : Task.priority task = 1 \/ Task.priority task = 2 \/
                       Task.priority task = 3 \/ Task.priority task = 4 \/
                       Task.priority task = 5) by lia.
      destruct Hcases as [Hp | [Hp | [Hp | [Hp | Hp]]]]; rewrite Hp.
      * change (increment_at (Z.to_nat (1 - 1)) [a; b; c; d; e])
          with [a + 1; b; c; d; e].
        rewrite IH. simpl Z.eqb. cbv iota.
        repeat (apply f_equal2; [lia |]); reflexivity.
      * change (increment_at (Z.to_nat (2 - 1)) [a; b; c; d; e])
          with [a; b + 1; c; d; e].
        rewrite IH. simpl Z.eqb. cbv iota.
        repeat (apply f_equal2; [lia |]); reflexivity.
      * change (increment_at (Z.to_nat (3 - 1)) [a; b; c; d; e])
          with [a; b; c + 1; d; e].
        rewrite IH. simpl Z.eqb. cbv iota.
        repeat (apply f_equal2; [lia |]); reflexivity.
      * change (increment_at (Z.to_nat (4 - 1)) [a; b; c; d; e])
          with [a; b; c; d + 1; e].
        rewrite IH. simpl Z.eqb. cbv iota.
        repeat (apply f_equal2; [lia |]); reflexivity.
      * change (increment_at (Z.to_nat (5 - 1)) [a; b; c; d; e])
          with [a; b; c; d; e + 1].
        rewrite IH. simpl Z.eqb. cbv iota.
        repeat (apply f_equal2; [lia |]); reflexivity.
    + rewrite IH.
      assert (Hout : Task.priority task < 1 \/ 5 < Task.priority task).
      { apply andb_false_iff in Hin as [H | H]; apply Z.leb_gt in H; lia. }
      repeat match goal with
             | |- context [Task.priority task =? ?k] =>
                 destruct (Z.eqb_spec (Task.priority task) k); [lia |]
             end.
      repeat (apply f_equal2; [lia |]); reflexivity.
Qed.

(** X25. The priority histogram always has five bars; bar [k] is the
    number of tasks of priority [k + 1]. A task whose priority is outside
    1..5 is in no bar, so the bars add up to the number of tasks exactly
    when every priority is in 1..5. *)
Theorem priorityDistribution_counts_each_priority (tasks : list Task.t) :
  priorityDistribution tasks =
    [count_priority 1 tasks; count_priority 2 tasks; count_priority 3 tasks;
     count_priority 4 tasks; count_priority 5 tasks] /\
  fold_right Z.add 0 (priorityDistribution tasks) <= totalTasks tasks /\
  (fold_right Z.add 0 (priorityDistribution tasks) = totalTasks tasks <->
   forall task, In task tasks -> 1 <= Task.priority task <= 5).
Proof.
  assert (Hdist : priorityDistribution tasks =
    [count_priority 1 tasks; count_priority 2 tasks; count_priority 3 tasks;
     count_priority 4 tasks; count_priority 5 tasks]).
  { unfold priorityDistribution. now rewrite priorityDistribution_from. }
  split; [exact Hdist |]. rewrite Hdist. clear Hdist.
  cbn [fold_right]. rewrite Z.add_0_r.
  induction tasks as [| task rest [IHle IHiff]].
  - unfold count_priority, totalTasks. simpl. split; [lia |].
    split; [intros _ task [] | reflexivity].
  - rewrite !count_priority_cons.
    replace (totalTasks (task :: rest)) with (1 + totalTasks rest)
      by (unfold totalTasks; simpl List.length; lia).
    assert (Hone :
      (if Task.priority task =? 1 then 1 else 0) +
      (if Task.priority task =? 2 then 1 else 0) +
      (if Task.priority task =? 3 then 1 else 0) +
      (if Task.priority task =? 4 then 1 else 0) +
      (if Task.priority task =? 5 then 1 else 0) =
      if (1 <=? Task.priority task) && (Task.priority task <=? 5)
      then 1 else 0).
    { repeat match goal with
             | |- context [Task.priority task =? ?k] =>
                 destruct (Z.eqb_spec (Task.priority task) k)
             end;
      destruct (Z.leb_spec 1 (Task.priority task));
      destruct (Z.leb_spec (Task.priority task) 5); simpl; lia. }
    destruct ((1 <=? Task.priority task) && (Task.priority task <=? 5)) eqn:Hin.
    + apply andb_true_iff in Hin as [Hlo Hhi]. apply Z.leb_le in Hlo, Hhi.
      split; [lia |]. split.
      * intros Hsum t [<- | Ht]; [lia |]. apply IHiff; [lia | exact Ht].
      * intros Hall.
        assert (Hrest : forall t, In t rest -> 1 <= Task.priority t <= 5)
          by (intros t Ht; apply Hall; now right).
        apply IHiff in Hrest. lia.
    + split; [lia |]. split.
      * intros Hsum. lia.
      * intros Hall. specialize (Hall task (or_introl eq_refl)).
        apply andb_false_iff in Hin as [H | H]; apply Z.leb_gt in H; lia.
Qed.

Lemma count_calls_split (f1 f2 f3 : nat -> Task.t -> bool)
      (tasks : list Task.t) (k1 k2 k3 : nat) :
  (forall task a b c, In task tasks ->
     ((if f1 a task then 1 else 0) + (if f2 b task then 1 else 0)
      + (if f3 c task then 1 else 0))%nat
     = (if Task.completed task then 0 else 1)%nat) ->
  (count_calls f1 k1 tasks + count_calls f2 k2 tasks
   + count_calls f3 k3 tasks)%nat
  = (List.length tasks
     - List.length (filter (fun task => Task.completed task) tasks))%nat.
Proof.
  revert k1 k2 k3. induction tasks as [| task rest IH]; intros k1 k2 k3 Hone.
  - reflexivity.
  - simpl count_calls.
    pose proof (Hone task k1 k2 k3 (or_introl eq_refl)) as H1.
    assert (Hrest : forall t a b c, In t rest ->
      ((if f1 a t then 1 else 0) + (if f2 b t then 1 else 0)
       + (if f3 c t then 1 else 0))%nat
      = (if Task.completed t then 0 else 1)%nat)
      by (intros t a b c Ht; apply Hone; now right).
    specialize (IH (S k1) (S k2) (S k3) Hrest).
    pose proof (filter_length_le (fun t => Task.completed t) rest) as Hle.
    simpl filter. simpl List.length.
    destruct (Task.completed task); simpl List.length; lia.
Qed.

(** X26. When the clock stays within one local day while the analytics are
    computed, and the due dates of the active tasks are valid, every active
    task is counted once: it is overdue, due today or upcoming, and the
    three counts add up to the number of tasks that are not completed. *)
Theorem day_counts_share_out_the_active_tasks
        (local_midnight : Z -> Date)
        (clock1 clock2 clock3 : nat -> Z) (tasks : list Task.t) (today : Z)
        (Hday : forall k,
            today_of local_midnight (clock1 k) = ValidDate today /\
            today_of local_midnight (clock2 k) = ValidDate today /\
            today_of local_midnight (clock3 k) = ValidDate today)
        (Hdue : forall task, In task tasks -> Task.completed task = false ->
                             has_time (setHours0 local_midnight (Task.dueDate task))) :
  overdueTasks local_midnight clock1 tasks
  + dueTodayTasks local_midnight clock2 tasks
  + upcomingTasks local_midnight clock3 tasks
  = totalTasks tasks - completedTasks tasks.
Proof.
  unfold overdueTasks, dueTodayTasks, upcomingTasks, totalTasks, completedTasks.
  rewrite <- !Nat2Z.inj_add.
  rewrite <- Nat2Z.inj_sub by apply filter_length_le.
  f_equal. apply count_calls_split.
  intros task a b c Htask. cbv zeta.
  destruct (Hday a) as [-> _]. destruct (Hday b) as [_ [-> _]].
  destruct (Hday c) as [_ [_ ->]].
  destruct (Task.completed task) eqn:Hc; simpl; [reflexivity |].
  destruct (has_time_valid _ (Hdue task Htask Hc)) as [t ->].
  unfold Date_lt, Date_same_time. simpl.
  destruct (Z.ltb_spec t today), (Z.eqb_spec t today), (Z.ltb_spec today t);
    simpl; lia.
Qed.

Lemma day_counts_share_out_the_active_tasks_witness :
  let midnight := fun t : Z => ValidDate (t - t mod day_ms) in
  let tasks := TasksState.tasks (initialState SampleRuntime.Date_now) in
  overdueTasks midnight SampleRuntime.Date_now tasks
  + dueTodayTasks midnight SampleRuntime.Date_now tasks
  + upcomingTasks midnight SampleRuntime.Date_now tasks
  = totalTasks tasks - completedTasks tasks.
Proof.
  apply (@day_counts_share_out_the_active_tasks
           (fun t : Z => ValidDate (t - t mod day_ms))
           SampleRuntime.Date_now SampleRuntime.Date_now SampleRuntime.Date_now
           (TasksState.tasks (initialState SampleRuntime.Date_now))
           1762128000000).
  - intros k. repeat split.
  - intros task Htask _. simpl in Htask.
    destruct Htask as [<- | [<- | [<- | [<- | []]]]]; vm_compute; discriminate.
Defined.

(* ===================================================================== *)
(** * Further properties of the persistence bridge                         *)
(* ===================================================================== *)

Section Reload.
Context {rt : JsRuntime}.

Lemma rehydrate_task_reloaded (task : Task.t) :
  rehydrate_task (json_image (value_of_Task task)) =
  Normal (value_of_Task (reloaded_task task)).
Proof.
  destruct task as [id name description dueDate completed priority tags
                    createdAt completedAt position].
  unfold rehydrate_task, value_of_Task, reloaded_task. simpl.
  rewrite json_image_strings.
  destruct dueDate as [due |], createdAt as [created |],
           completedAt as [[done |] |]; simpl; unfold bind; simpl;
    try reflexivity;
    destruct (JsString.truthy (toISOString done)); reflexivity.
Qed.

Lemma rehydrate_tasks_reloaded (tasks : list Task.t) :
  Array_map rehydrate_task
    (map (fun x => match x with
                   | VUndefined => VNull
                   | _ => json_image x
                   end) (map value_of_Task tasks)) =
  Normal (map value_of_Task (map reloaded_task tasks)).
Proof.
  induction tasks as [| task rest IH]; cbn [map Array_map].
  - reflexivity.
  - change (match value_of_Task task with
            | VUndefined => VNull
            | _ => json_image (value_of_Task task)
            end) with (json_image (value_of_Task task)).
    rewrite rehydrate_task_reloaded. cbn [bind]. rewrite IH. reflexivity.
Qed.

Lemma parse_saved_reloaded (state : TasksState.t) :
  parse_saved (JSON_stringify (value_of_TasksState state)) =
  Normal (value_of_TasksState (reloaded_state state)).
Proof.
  destruct state as [tasks tags].
  unfold parse_saved, JSON_stringify, value_of_TasksState, reloaded_state.
  cbn [TasksState.tasks TasksState.tags json_image JSON_parse bind get
       own_property str_eq String.eqb Ascii.eqb Bool.eqb].
  rewrite rehydrate_tasks_reloaded, json_image_tags.
  reflexivity.
Qed.
End Reload.

(** X27. Whatever state the component saves, loading it back succeeds: the
    loader throws nothing, logs nothing and dispatches a payload of type
    [TasksState]. The tags and, in every task, the id, name, description,
    completed flag, priority, tag ids and position come back as they were;
    a valid date comes back as the parser reads its ISO string; an Invalid
    Date comes back as the epoch in [dueDate] and [createdAt] and as [null]
    in [completedAt], the task staying completed. *)
Theorem loading_a_saved_state_never_fails
        (rt : JsRuntime) (state0 state : TasksState.t) :
  load_effect (save_effect state) =
    Normal (mkOutcome (Some (value_of_TasksState (reloaded_state state))) []) /\
  load_saved state0 state = Normal (WellTyped (reloaded_state state)) /\
  TasksState.tags (reloaded_state state) = TasksState.tags state /\
  (forall i task,
      nth_error (TasksState.tasks state) i = Some task ->
      exists task',
        nth_error (TasksState.tasks (reloaded_state state)) i = Some task' /\
        Task.id task' = Task.id task /\
        Task.name task' = Task.name task /\
        Task.description task' = Task.description task /\
        Task.completed task' = Task.completed task /\
        Task.priority task' = Task.priority task /\
        Task.tags task' = Task.tags task /\
        Task.position task' = Task.position task /\
        (Task.dueDate task = InvalidDate -> Task.dueDate task' = ValidDate 0) /\
        (Task.createdAt task = InvalidDate ->
         Task.createdAt task' = ValidDate 0) /\
        (Task.completedAt task = Some InvalidDate ->
         Task.completedAt task' = None) /\
        (Task.completedAt task = None -> Task.completedAt task' = None) /\
        (forall t, Task.dueDate task = ValidDate t ->
                   Task.dueDate task' = Date_parse (toISOString t))).
Proof.
  assert (Hload : load_effect (save_effect state) =
    Normal (mkOutcome (Some (value_of_TasksState (reloaded_state state))) [])).
  { unfold save_effect, load_effect. cbn [saved_is_truthy JSON_stringify].
    fold (JSON_stringify (value_of_TasksState state)).
    now rewrite parse_saved_reloaded. }
  split; [exact Hload |]. split; [| split; [reflexivity |]].
  - unfold load_saved. rewrite Hload. cbn [bind].
    unfold store_after_load. cbn [dispatched].
    now rewrite TasksState_of_value.
  - intros i task Hnth. exists (reloaded_task task). split.
    + simpl. rewrite nth_error_map, Hnth. reflexivity.
    + simpl. repeat split; try (intros ->; reflexivity).
      intros t ->. reflexivity.
Qed.

Lemma own_property_set_property (k k' : string) (v : jsval)
      (props : list (string * jsval)) :
  own_property k (set_property k' v props) =
  if str_eq k' k then Some v else own_property k props.
Proof.
  induction props as [| [k0 v0] rest IH]; simpl.
  - reflexivity.
  - destruct (str_eq k0 k') eqn:H0; simpl.
    + apply str_eq_true in H0. subst k0.
      now destruct (str_eq k' k).
    + rewrite IH. destruct (str_eq k0 k) eqn:H1; [| reflexivity].
      apply str_eq_true in H1. subst k0.
      unfold str_eq in *. rewrite String.eqb_sym in H0. now rewrite H0.
Qed.

Lemma new_Date_primitive (rt : JsRuntime) (v : jsval) :
  is_primitive v = true -> exists d, new_Date v = Normal d.
Proof. destruct v; simpl; intros H; try discriminate; eexists; reflexivity. Qed.

(** X28. The loader rewrites the three date fields of a stored task and
    nothing else: when these fields hold primitive values (a string, a
    number, [null], a boolean, or nothing), rehydrating a stored object
    throws nothing, puts a [Date] into [dueDate] and [createdAt], a [Date]
    or [null] into [completedAt], and every other property of the object
    comes out with the value it had. *)
Theorem rehydrate_task_rewrites_dates_only
        (rt : JsRuntime) (props : list (string * jsval))
        (Hprimitive : forall k v, is_date_key k = true ->
                                  own_property k props = Some v ->
                                  is_primitive v = true) :
  exists props',
    rehydrate_task (VObj props) = Normal (VObj props') /\
    (forall k, is_date_key k = false ->
               own_property k props' = own_property k props) /\
    (exists d, own_property "dueDate" props' = Some (VDate d)) /\
    (exists d, own_property "createdAt" props' = Some (VDate d)) /\
    (own_property "completedAt" props' = Some VNull \/
     exists d, own_property "completedAt" props' = Some (VDate d)).
Proof.
  assert (Hfield : forall k, is_date_key k = true ->
            exists d, new_Date (match own_property k props with
                                | Some x => x
                                | None => VUndefined
                                end) = Normal d).
  { intros k Hk. apply new_Date_primitive.
    destruct (own_property k props) eqn:Hv; [| reflexivity].
    now apply (Hprimitive k). }
  destruct (Hfield "dueDate" eq_refl) as [due Hdue].
  destruct (Hfield "createdAt" eq_refl) as [created Hcreated].
  destruct (Hfield "completedAt" eq_refl) as [done Hdone].
  unfold rehydrate_task. cbn [get spread bind].
  rewrite Hdue, Hcreated. cbn [bind].
  destruct (truthy (match own_property "completedAt" props with
                    | Some x => x
                    | None => VUndefined
                    end)) eqn:Htruthy.
  - rewrite Hdone. cbn [bind]. eexists. split; [reflexivity |].
    split; [| split; [| split]].
    + intros k Hk. unfold is_date_key in Hk.
      apply orb_false_iff in Hk as [Hk H3].
      apply orb_false_iff in Hk as [H1 H2].
      rewrite !own_property_set_property.
      unfold str_eq in *. rewrite String.eqb_sym in H1, H2, H3.
      now rewrite H1, H2, H3.
    + exists due. now rewrite !own_property_set_property.
    + exists created. now rewrite !own_property_set_property.
    + right. exists done. now rewrite !own_property_set_property.
  - cbn [bind]. eexists. split; [reflexivity |].
    split; [| split; [| split]].
    + intros k Hk. unfold is_date_key in Hk.
      apply orb_false_iff in Hk as [Hk H3].
      apply orb_false_iff in Hk as [H1 H2].
      rewrite !own_property_set_property.
      unfold str_eq in *. rewrite String.eqb_sym in H1, H2, H3.
      now rewrite H1, H2, H3.
    + exists due. now rewrite !own_property_set_property.
    + exists created. now rewrite !own_property_set_property.
    + left. now rewrite !own_property_set_property.
Qed.

Lemma rehydrate_task_rewrites_dates_only_witness :
  exists props',
    @rehydrate_task SampleRuntime.runtime
      (VObj [("id", VStr "7"); ("dueDate", VStr "T86400000");
             ("starred", VBool true)]) = Normal (VObj props') /\
    own_property "starred" props' = Some (VBool true) /\
    own_property "dueDate" props' = Some (VDate (ValidDate 86400000)) /\
    own_property "createdAt" props' = Some (VDate InvalidDate) /\
    own_property "completedAt" props' = Some VNull.
Proof.
  destruct (@rehydrate_task_rewrites_dates_only SampleRuntime.runtime
              [("id", VStr "7"); ("dueDate", VStr "T86400000");
               ("starred", VBool true)])
    as (props' & Hrun & Hother & _).
  - intros k v Hk Hv. simpl in Hv.
    repeat match type of Hv with
           | context [if ?c then _ else _] => destruct c
           end;
      try discriminate Hv; injection Hv as <-; reflexivity.
  - exists props'. split; [exact Hrun |].
    vm_compute in Hrun. injection Hrun as <-. repeat split.
Defined.

(** X29. Whatever the slot holds, the load effect returns normally. It
    either dispatches one payload and writes nothing to the console, or
    dispatches nothing and writes at most one line; with no item or an
    empty string in the slot it does neither. *)
Theorem load_effect_dispatches_or_logs (rt : JsRuntime) (slot : Storage) :
  exists outcome,
    load_effect slot = Normal outcome /\
    ((exists payload, dispatched outcome = Some payload /\ console outcome = [])
     \/ (dispatched outcome = None /\
         (List.length (console outcome) <= 1)%nat)) /\
    (saved_is_truthy slot = false -> outcome = mkOutcome None []).
Proof.
  unfold load_effect.
  destruct (saved_is_truthy slot) eqn:Hsaved.
  - destruct slot as [savedTasks |]; [| discriminate Hsaved].
    unfold try_catch, bind.
    destruct (parse_saved savedTasks) as [payload | error];
      eexists; (split; [reflexivity |]); (split; [| discriminate]).
    + left. exists payload. split; reflexivity.
    + right. split; [reflexivity | simpl; lia].
  - eexists. split; [reflexivity |]. split; [| reflexivity].
    right. split; [reflexivity | simpl; lia].
Qed.

(* ===================================================================== *)
(** * The contrast colour                                                  *)
(* ===================================================================== *)

Example contrast_of_the_seed_tags :
  Contrast.getContrastColor "#3b82f6" = "#ffffff" /\
  Contrast.getContrastColor "#10b981" = "#000000" /\
  Contrast.getContrastColor "#8b5cf6" = "#ffffff".
Proof. vm_compute. repeat split. Qed.

Lemma In_channels (v : Z) : 0 <= v <= 255 -> In v Contrast.channels.
Proof.
  intros Hv. unfold Contrast.channels.
  apply in_map_iff. exists (Z.to_nat v). split; [lia |].
  apply in_seq. lia.
Qed.

Lemma grey_and_pure_checked :
  forallb Contrast.grey_and_pure_ok Contrast.channels = true.
Proof. vm_compute. reflexivity. Qed.

(** X30. For the colours that a colour input reports, [getContrastColor]
    computed in binary64 arithmetic gives black text on the greys from
    [#808080] up and white text on the darker greys, white text on every
    pure red and every pure blue, and black text on the pure greens from
    [#00da00] up. *)
Theorem contrast_on_greys_and_pure_colours (v : Z) (Hv : 0 <= v <= 255) :
  Contrast.getContrastColor (Contrast.color_of v v v) =
    (if 128 <=? v then "#000000" else "#ffffff") /\
  Contrast.getContrastColor (Contrast.color_of v 0 0) = "#ffffff" /\
  Contrast.getContrastColor (Contrast.color_of 0 v 0) =
    (if 218 <=? v then "#000000" else "#ffffff") /\
  Contrast.getContrastColor (Contrast.color_of 0 0 v) = "#ffffff".
Proof.
  pose proof (proj1 (forallb_forall _ _) grey_and_pure_checked v
                    (In_channels v Hv)) as Hok.
  unfold Contrast.grey_and_pure_ok in Hok.
  apply andb_true_iff in Hok as [Hok Hblue].
  apply andb_true_iff in Hok as [Hok Hgreen].
  apply andb_true_iff in Hok as [Hgrey Hred].
  apply String.eqb_eq in Hgrey, Hred, Hgreen, Hblue.
  repeat split; assumption.
Qed.

Lemma contrast_on_greys_and_pure_colours_witness :
  Contrast.getContrastColor "#808080" = "#000000" /\
  Contrast.getContrastColor "#800000" = "#ffffff" /\
  Contrast.getContrastColor "#008000" = "#ffffff" /\
  Contrast.getContrastColor "#000080" = "#ffffff".
Proof.
  apply (contrast_on_greys_and_pure_colours 128). lia.
Defined.
